(** * Liability quote engine: validation, pricing, summary and tool envelope

    A shallow embedding of the TypeScript sources

      - [src/clients/liability-client.ts]  (class [LiabilityClient])
      - [src/tools/liability-quote-tool.ts] (function [createLiabilityQuoteTool])
      - [src/types/index.ts]               (records and [ValidationError])

    JavaScript numbers that take part in arithmetic are IEEE-754 binary64
    values, embedded with the executable specification [SpecFloat] of the
    standard library (53 bits of precision, round to nearest even); so are
    the request fields [numberOfClaims] and [coverageAmount], which the
    source declares as [number] and compares as such.  [deductibleAmount],
    of the literal type [0 | 150 | 300 | 500] and only ever looked up, is
    [Z].  Strings are [string]; arrays are [list]; [undefined] in an optional
    field is [None]. *)

From Stdlib Require Import ZArith List String Ascii Bool Lia.
From Stdlib Require Import SpecFloat.
From Stdlib Require DecimalString DecimalZ DecimalPos.
Import ListNotations.

Open Scope string_scope.
Open Scope Z_scope.

(* ================================================================== *)
(** ** JavaScript numbers *)

Module JSNumber.

Definition number := spec_float.

Definition prec : Z := 53.
Definition emax : Z := 1024.

Definition NaN : number := S754_nan.

(** An integer as a number (exact below 2^53, rounded above). *)
Definition ofZ (z : Z) : number := binary_normalize prec emax z 0 false.

Definition add : number -> number -> number := SFadd prec emax.
Definition mul : number -> number -> number := SFmul prec emax.
Definition div : number -> number -> number := SFdiv prec emax.

(** The decimal literal [n / d], [d] a power of ten: the binary64 value
    nearest to it, which the correctly rounded quotient of the two exactly
    represented integers is. *)
Definition lit (n d : Z) : number := div (ofZ n) (ofZ d).

(** [x < y], [x > y], [x >= y] of the language: false when either is NaN. *)
Definition lt (x y : number) : bool := SFltb x y.
Definition gt (x y : number) : bool := SFltb y x.
Definition ge (x y : number) : bool := SFleb y x.

(** [x <= y], likewise. *)
Definition le (x y : number) : bool := SFleb x y.

(** Truthiness of a number: the two zeros and NaN are falsy. *)
Definition truthy_number (x : number) : bool :=
  match x with
  | S754_zero _ => false
  | S754_nan => false
  | _ => true
  end.

(** The integer an integral number stands for. *)
Definition toZ (x : number) : Z :=
  match x with
  | S754_finite s m e =>
      let sm := if s then Z.neg m else Z.pos m in
      if 0 <=? e then sm * 2 ^ e else sm / 2 ^ (- e)
  | _ => 0
  end.

Definition isNaN (x : number) : bool :=
  match x with S754_nan => true | _ => false end.

(** [Math.round]: the integer nearest to [x], ties towards +infinity;
    NaN, the infinities and the zeros are returned as they are, and a
    negative argument that rounds to zero gives -0. *)
Definition Math_round (x : number) : number :=
  match x with
  | S754_finite s m e =>
      let sm := if s then Z.neg m else Z.pos m in
      let n :=
        if 0 <=? e then sm * 2 ^ e
        else (2 * sm + 2 ^ (- e)) / (2 * 2 ^ (- e)) in
      if n =? 0 then S754_zero s else ofZ n
  | _ => x
  end.

(** ToNumber of a table lookup: [undefined] becomes NaN in arithmetic. *)
Definition ToNumber (v : option number) : number :=
  match v with Some x => x | None => NaN end.

End JSNumber.

Import JSNumber.

(* ================================================================== *)
(** ** Strings and arrays *)

Module JSString.

Definition is_digit (c : ascii) : bool :=
  let n := nat_of_ascii c in (48 <=? n)%nat && (n <=? 57)%nat.

(** The regular expression [/^\d{k}$/] applied with [test]: the whole input
    is exactly [k] decimal digits. *)
Fixpoint test_digits (k : nat) (s : string) : bool :=
  match k, s with
  | O, EmptyString => true
  | S k', String c s' => is_digit c && test_digits k' s'
  | _, _ => false
  end.

(** [Array.prototype.join] on an array of strings. *)
Fixpoint join (sep : string) (parts : list string) : string :=
  match parts with
  | [] => EmptyString
  | [p] => p
  | p :: rest => p ++ sep ++ join sep rest
  end.

(** [Array.prototype.includes] on strings and on integers. *)
Definition includes_str (l : list string) (x : string) : bool :=
  existsb (String.eqb x) l.
Definition includes_Z (l : list Z) (x : Z) : bool :=
  existsb (Z.eqb x) l.

(** [Array.prototype.push], returning the extended array. *)
Definition push {A} (l : list A) (x : A) : list A := (l ++ [x])%list.

(** Truthiness of a string: only the empty string is falsy. *)
Definition truthy_str (s : string) : bool :=
  match s with EmptyString => false | _ => true end.

(** Template interpolation of an integer below 10^21: its decimal digits. *)
Definition Z_toString (z : Z) : string :=
  DecimalString.NilZero.string_of_int (Z.to_int z).

End JSString.

Import JSString.

(* ================================================================== *)
(** ** Types ([src/types/index.ts]) *)

Record LiabilityConfiguration := mkConfig {
  zipCode : string;
  tariffLine : string;
  familyCoverage : bool;
  dronesCoverage : bool;
  deductibleAmount : Z;
  previousInsurance : bool;
  numberOfClaims : number;
  cancelledByInsurer : bool;
  effectiveDate : string;
  coverageAmount : option number
}.

Record LiabilityQuote := mkQuote {
  quoteId : string;
  monthlyPremium : number;
  annualPremium : number;
  currency : string;
  coverageSum : number;
  deductible : Z;
  territory : string;
  includedRisks : list string;
  extensions : list string;
  validUntil : string;
  q_tariffLine : string;
  q_familyCoverage : bool
}.

Record LiabilityQuoteResult := mkResult {
  success : bool;
  quote : option LiabilityQuote;
  error : option string;
  summary : string
}.

Record ValidationResult := mkValidation {
  valid : bool;
  errors : option (list string)
}.

(** What a [catch] clause can receive: a [ValidationError] with its message
    and optional details, any other [Error] with its message, or a thrown
    value that is not an [Error]. *)
Inductive Thrown :=
| ValidationError (message : string) (details : option (list string))
| OtherError (message : string)
| NotAnError.

Inductive Outcome (A : Type) :=
| Returned (a : A)
| Threw (e : Thrown).
Arguments Returned {A} a.
Arguments Threw {A} e.

(* ================================================================== *)
(** ** The host environment

    What the engine takes from the JavaScript runtime and cannot compute
    itself: the clock, the random source, date parsing and the
    locale-dependent renderings.  The clock and the random source are
    oracles indexed by the number of readings already made, and the [World]
    counts those readings. *)

Class Host := {
  (** [Date.now()] at the k-th reading of the clock (milliseconds). *)
  Date_now : nat -> Z;
  (** [Math.random().toString(36).substring(7)] at the k-th draw. *)
  Math_random_suffix : nat -> string;
  (** Time value of [new Date(s)]; [None] is the Invalid Date (NaN). *)
  Date_parse : string -> option Z;
  (** [new Date(t).toISOString()]. *)
  Date_toISOString : Z -> string;
  (** [d.toLocaleDateString()], the Invalid Date included. *)
  Date_toLocaleDateString : option Z -> string;
  (** [n.toLocaleString()] of a number. *)
  Number_toLocaleString : number -> string;
  (** Template interpolation of a number. *)
  Number_toString : number -> string
}.

Record World := mkWorld {
  clock_reads : nat;
  random_draws : nat
}.

(** Computations that read the world and either return or throw. *)
Definition M (A : Type) : Type := World -> Outcome A * World.

Definition ret {A} (a : A) : M A := fun w => (Returned a, w).

Definition throw {A} (e : Thrown) : M A := fun w => (Threw e, w).

Definition bind {A B} (c : M A) (k : A -> M B) : M B :=
  fun w =>
    match c w with
    | (Returned a, w') => k a w'
    | (Threw e, w') => (Threw e, w')
    end.

Definition try_catch {A} (body : M A) (handler : Thrown -> M A) : M A :=
  fun w =>
    match body w with
    | (Returned a, w') => (Returned a, w')
    | (Threw e, w') => handler e w'
    end.

Notation "x <- c ;; k" := (bind c (fun x => k))
  (at level 61, c at next level, right associativity).

Definition now `{Host} : M Z :=
  fun w => (Returned (Date_now (clock_reads w)),
            mkWorld (S (clock_reads w)) (random_draws w)).

Definition random_suffix `{Host} : M string :=
  fun w => (Returned (Math_random_suffix (random_draws w)),
            mkWorld (clock_reads w) (S (random_draws w))).

(** Lookup in an object literal used as a table; a key that is not there
    gives [None] ([undefined]). *)
Fixpoint get_str {V} (tbl : list (string * V)) (k : string) : option V :=
  match tbl with
  | [] => None
  | (k', v) :: rest => if String.eqb k k' then Some v else get_str rest k
  end.

Fixpoint get_Z {V} (tbl : list (Z * V)) (k : Z) : option V :=
  match tbl with
  | [] => None
  | (k', v) :: rest => if Z.eqb k k' then Some v else get_Z rest k
  end.

(* ================================================================== *)
(** ** [LiabilityClient] ([src/clients/liability-client.ts]) *)

Module LiabilityClient.

Section Client.
Context `{Host}.

(** *** The conditions of the seven [if] statements of [validateInput] *)

(** [!params.zipCode || params.zipCode.length !== 5 || !/^\d{5}$/.test(params.zipCode)] *)
Definition bad_zipCode (params : LiabilityConfiguration) : bool :=
  negb (truthy_str (zipCode params))
  || negb (String.length (zipCode params) =? 5)%nat
  || negb (test_digits 5 (zipCode params)).

(** [!['basic', 'comfort', 'premium'].includes(params.tariffLine)] *)
Definition bad_tariffLine (params : LiabilityConfiguration) : bool :=
  negb (includes_str ["basic"; "comfort"; "premium"] (tariffLine params)).

(** [![0, 150, 300, 500].includes(params.deductibleAmount)] *)
Definition bad_deductibleAmount (params : LiabilityConfiguration) : bool :=
  negb (includes_Z [0; 150; 300; 500] (deductibleAmount params)).

(** [params.numberOfClaims < 0] *)
Definition claims_negative (params : LiabilityConfiguration) : bool :=
  lt (numberOfClaims params) (ofZ 0).

(** [params.numberOfClaims > 10] *)
Definition claims_exceed (params : LiabilityConfiguration) : bool :=
  gt (numberOfClaims params) (ofZ 10).

(** [isNaN(new Date(params.effectiveDate).getTime())] *)
Definition bad_effectiveDate (params : LiabilityConfiguration) : bool :=
  match Date_parse (effectiveDate params) with
  | None => true
  | Some _ => false
  end.

(** Truthiness of the optional number: [undefined], the two zeros and NaN
    are falsy. *)
Definition truthy_coverage (c : option number) : bool :=
  match c with
  | Some v => truthy_number v
  | None => false
  end.

(** [params.coverageAmount] truthy, and then
    [params.coverageAmount < 5000000 || params.coverageAmount > 20000000] *)
Definition bad_coverageAmount (params : LiabilityConfiguration) : bool :=
  match coverageAmount params with
  | Some v =>
      if truthy_coverage (Some v)
      then lt v (ofZ 5000000) || gt v (ofZ 20000000)
      else false
  | None => false
  end.

Definition msg_zipCode : string :=
  "Invalid German postal code (must be 5 digits)".
Definition msg_tariffLine : string :=
  "Invalid tariff line (must be basic, comfort, or premium)".
Definition msg_deductibleAmount : string :=
  "Invalid deductible amount (must be 0, 150, 300, or 500)".
Definition msg_claims_negative : string :=
  "Number of claims cannot be negative".
Definition msg_claims_exceed : string :=
  "Number of claims exceeds maximum allowed (10)".
Definition msg_effectiveDate : string :=
  "Invalid effective date format".
Definition msg_coverageAmount : string :=
  "Coverage amount must be between €5,000,000 and €20,000,000".

(** The array [errors] after the seven statements, each pushing onto the
    array left by the one before. *)
Definition collect_errors (params : LiabilityConfiguration) : list string :=
  let errors : list string := [] in
  let errors := if bad_zipCode params then push errors msg_zipCode else errors in
  let errors := if bad_tariffLine params then push errors msg_tariffLine else errors in
  let errors :=
    if bad_deductibleAmount params then push errors msg_deductibleAmount else errors in
  let errors :=
    if claims_negative params then push errors msg_claims_negative else errors in
  let errors := if claims_exceed params then push errors msg_claims_exceed else errors in
  let errors := if bad_effectiveDate params then push errors msg_effectiveDate else errors in
  let errors :=
    if bad_coverageAmount params then push errors msg_coverageAmount else errors in
  errors.

(** [validateInput]: [valid] is [errors.length === 0], and the field
    [errors] is the array when it is not empty and [undefined] otherwise. *)
Definition validateInput (params : LiabilityConfiguration) : ValidationResult :=
  let errors := collect_errors params in
  {| valid := (List.length errors =? 0)%nat;
     errors := if (0 <? List.length errors)%nat then Some errors else None |}.

(** *** Pricing tables of [calculateQuote] *)

Definition coverageAmounts : list (string * number) :=
  [("basic", ofZ 5000000); ("comfort", ofZ 10000000);
   ("premium", ofZ 20000000)].

Definition basePremiums : list (string * number) :=
  [("basic", lit 599 100); ("comfort", lit 999 100); ("premium", lit 1499 100)].

Definition deductibleDiscounts : list (Z * number) :=
  [(0, ofZ 1); (150, lit 9 10); (300, lit 85 100); (500, lit 8 10)].

(** [params.coverageAmount || coverageAmounts[params.tariffLine]].  A tariff
    line outside the table would leave [undefined]; [calculateQuote] has
    thrown before (lemma [valid_tariff_in_tables]), and NaN stands for it. *)
Definition resolve_coverage (params : LiabilityConfiguration) : number :=
  match coverageAmount params with
  | Some v =>
      if truthy_coverage (Some v) then v
      else ToNumber (get_str coverageAmounts (tariffLine params))
  | None => ToNumber (get_str coverageAmounts (tariffLine params))
  end.

(** The running [monthlyPremium] before rounding.  A lookup outside a table
    is [undefined], which the first arithmetic operation turns into NaN. *)
Definition raw_monthlyPremium (params : LiabilityConfiguration) : number :=
  let monthlyPremium := ToNumber (get_str basePremiums (tariffLine params)) in
  let monthlyPremium :=
    if familyCoverage params then mul monthlyPremium (lit 15 10)
    else monthlyPremium in
  let monthlyPremium :=
    if dronesCoverage params then add monthlyPremium (lit 250 100)
    else monthlyPremium in
  let monthlyPremium :=
    mul monthlyPremium
        (ToNumber (get_Z deductibleDiscounts (deductibleAmount params))) in
  let monthlyPremium :=
    if gt (numberOfClaims params) (ofZ 0)
    then mul monthlyPremium
             (add (ofZ 1) (mul (numberOfClaims params) (lit 15 100)))
    else monthlyPremium in
  let monthlyPremium :=
    if cancelledByInsurer params then mul monthlyPremium (lit 13 10)
    else monthlyPremium in
  monthlyPremium.

(** [Math.round(x * 100) / 100] *)
Definition round2 (x : number) : number :=
  div (Math_round (mul x (ofZ 100))) (ofZ 100).

Definition build_extensions (params : LiabilityConfiguration) : list string :=
  let extensions : list string := [] in
  let extensions :=
    if dronesCoverage params then push extensions "drones_coverage"
    else extensions in
  let extensions :=
    if familyCoverage params then push extensions "family_coverage"
    else extensions in
  extensions.

Definition thirty_days_ms : Z := 30 * 24 * 60 * 60 * 1000.

Definition calculateQuote (params : LiabilityConfiguration) : M LiabilityQuote :=
  let validation := validateInput params in
  if negb (valid validation)
  then throw (ValidationError "Invalid parameters" (errors validation))
  else
    let coverageAmount := resolve_coverage params in
    let monthlyPremium := raw_monthlyPremium params in
    let annualPremium := mul monthlyPremium (ofZ 12) in
    let extensions := build_extensions params in
    t_id <- now ;;
    suffix <- random_suffix ;;
    t_valid <- now ;;
    ret {| quoteId := "quote_" ++ Z_toString t_id ++ "_" ++ suffix;
           monthlyPremium := round2 monthlyPremium;
           annualPremium := round2 annualPremium;
           currency := "EUR";
           coverageSum := coverageAmount;
           deductible := deductibleAmount params;
           territory := "Worldwide";
           includedRisks :=
             ["personal_injury"; "property_damage"; "financial_loss"];
           extensions := extensions;
           validUntil := Date_toISOString (t_valid + thirty_days_ms);
           q_tariffLine := tariffLine params;
           q_familyCoverage := familyCoverage params |}.

(** *** [formatQuoteSummary] *)

Definition premium_line (quote : LiabilityQuote) : string :=
  "Liability Insurance Quote: €" ++ Number_toString (monthlyPremium quote)
  ++ "/month (€" ++ Number_toString (annualPremium quote) ++ "/year)".

Definition coverage_line (quote : LiabilityQuote) : string :=
  "Coverage: €" ++ Number_toLocaleString (coverageSum quote)
  ++ " " ++ q_tariffLine quote.

Definition summary_parts (quote : LiabilityQuote) : list string :=
  let parts : list string := [] in
  let parts := push parts (premium_line quote) in
  let parts := push parts (coverage_line quote) in
  let parts :=
    if deductible quote >? 0
    then push parts ("Deductible: €" ++ Z_toString (deductible quote))
    else push parts "No deductible" in
  let parts :=
    if q_familyCoverage quote then push parts "Includes family coverage"
    else parts in
  let parts :=
    if includes_str (extensions quote) "drones_coverage"
    then push parts "Includes drone liability"
    else parts in
  let parts := push parts ("Territory: " ++ territory quote) in
  let parts :=
    push parts ("Valid until: "
                ++ Date_toLocaleDateString (Date_parse (validUntil quote))) in
  parts.

Definition formatQuoteSummary (quote : LiabilityQuote) : string :=
  join ". " (summary_parts quote) ++ ".".

End Client.

End LiabilityClient.

(* ================================================================== *)
(** ** The tool handler ([src/tools/liability-quote-tool.ts]) *)

Module LiabilityQuoteTool.

Import LiabilityClient.

Section Tool.
Context `{Host}.

(** [error.details?.join(', ') || error.message] *)
Definition details_or_message (message : string) (details : option (list string))
  : string :=
  match details with
  | Some l => if truthy_str (join ", " l) then join ", " l else message
  | None => message
  end.

(** The [catch (error)] block of the handler. *)
Definition on_error (error : Thrown) : LiabilityQuoteResult :=
  match error with
  | ValidationError message details =>
      {| success := false;
         quote := None;
         error := Some ("Validation error: " ++ message);
         summary :=
           "Failed to calculate quote: " ++ details_or_message message details |}
  | OtherError message =>
      {| success := false;
         quote := None;
         error := Some message;
         summary := "Failed to calculate quote due to an unexpected error" |}
  | NotAnError =>
      {| success := false;
         quote := None;
         error := Some "Unknown error";
         summary := "Failed to calculate quote due to an unexpected error" |}
  end.

(** The two methods of a client that the handler calls; either may
    throw. *)
Record Client := mkClient {
  client_calculateQuote : LiabilityConfiguration -> M LiabilityQuote;
  client_formatQuoteSummary : LiabilityQuote -> M string
}.

(** [new LiabilityClient()] *)
Definition new_LiabilityClient : Client :=
  {| client_calculateQuote := calculateQuote;
     client_formatQuoteSummary := fun quote => ret (formatQuoteSummary quote) |}.

(** The [handler] of [createLiabilityQuoteTool], as a function of the
    [client] it closes over: the [try] block and the [catch] block. *)
Definition handler_of (client : Client) (params : LiabilityConfiguration)
  : M LiabilityQuoteResult :=
  try_catch
    (quote <- client_calculateQuote client params ;;
     summary <- client_formatQuoteSummary client quote ;;
     ret {| success := true;
            quote := Some quote;
            error := None;
            summary := summary |})
    (fun error => ret (on_error error)).

(** The [handler] of the tool returned by [createLiabilityQuoteTool], whose
    [client] is [new LiabilityClient()]. *)
Definition handler (params : LiabilityConfiguration) : M LiabilityQuoteResult :=
  handler_of new_LiabilityClient params.

End Tool.

End LiabilityQuoteTool.

(* ================================================================== *)
(** ** The tool registry and the server dispatch
    ([src/tools/index.ts], [src/server/mcp-server.ts]) *)

Module MCPServer.

Import LiabilityClient LiabilityQuoteTool.

(** What the dispatch takes from its libraries: the arguments of a call as
    they arrive, the parse of the tool's input schema (typed parameters, or a
    thrown error), and [JSON.stringify(_, null, 2)] of the two objects the
    server serialises: a tool result, and [{success: false, error: message}]. *)
Class Protocol := {
  RawArguments : Type;
  inputSchema_parse : RawArguments -> Outcome LiabilityConfiguration;
  JSON_stringify_result : LiabilityQuoteResult -> string;
  JSON_stringify_failure : string -> string
}.

Section Server.
Context {host_ : Host} {protocol_ : Protocol}.

Record MCPTool := mkTool {
  tool_name : string;
  tool_description : string;
  tool_inputSchema : RawArguments -> Outcome LiabilityConfiguration;
  tool_handler : LiabilityConfiguration -> M LiabilityQuoteResult
}.

Definition createLiabilityQuoteTool : MCPTool :=
  {| tool_name := "get_liability_quote";
     tool_description :=
       "Calculate anonymous liability insurance quote for Germany. Supports basic, comfort, and premium coverage levels with optional family and drone coverage. Returns monthly and annual premiums.";
     tool_inputSchema := inputSchema_parse;
     tool_handler := handler |}.

Definition getAllTools : list MCPTool := [createLiabilityQuoteTool].

(** The four calls to the logger, with what they record. *)
Inductive LogEntry :=
| Tool_not_found (toolName : string)
| Executing_tool (toolName : string) (params : RawArguments)
| Tool_execution_completed (toolName : string) (success : bool)
| Tool_execution_failed (toolName : string) (error : Thrown).

Record ServerState := mkServer {
  world : World;
  log : list LogEntry
}.

Record CallToolRequest := mkRequest {
  request_name : string;
  request_arguments : RawArguments
}.

Record TextContent := mkText {
  content_type : string;
  text : string
}.

Record CallToolResult := mkCallResult {
  content : list TextContent;
  isError : option bool
}.

(** [error instanceof Error ? error.message : 'Unknown error'] *)
Definition message_or_unknown (error : Thrown) : string :=
  match error with
  | ValidationError message _ => message
  | OtherError message => message
  | NotAnError => "Unknown error"
  end.

(** The [catch (error)] block of the call handler. *)
Definition call_failed (toolName : string) (error : Thrown) (s : ServerState)
  : Outcome CallToolResult * ServerState :=
  (Returned {| content :=
                 [ {| content_type := "text";
                      text := JSON_stringify_failure (message_or_unknown error) |} ];
               isError := Some true |},
   {| world := world s;
      log := push (log s) (Tool_execution_failed toolName error) |}).

(** The handler registered for [CallToolRequestSchema]. *)
Definition callTool (request : CallToolRequest) (s : ServerState)
  : Outcome CallToolResult * ServerState :=
  let tools := getAllTools in
  match find (fun t => String.eqb (tool_name t) (request_name request)) tools with
  | None =>
      (Threw (OtherError ("Unknown tool: " ++ request_name request)),
       {| world := world s;
          log := push (log s) (Tool_not_found (request_name request)) |})
  | Some tool =>
      let s1 :=
        {| world := world s;
           log := push (log s)
                       (Executing_tool (tool_name tool) (request_arguments request)) |} in
      match tool_inputSchema tool (request_arguments request) with
      | Threw error => call_failed (tool_name tool) error s1
      | Returned validatedParams =>
          match tool_handler tool validatedParams (world s1) with
          | (Threw error, w') =>
              call_failed (tool_name tool) error {| world := w'; log := log s1 |}
          | (Returned result, w') =>
              (Returned {| content :=
                             [ {| content_type := "text";
                                  text := JSON_stringify_result result |} ];
                           isError := None |},
               {| world := w';
                  log := push (log s1)
                              (Tool_execution_completed (tool_name tool) true) |})
          end
      end
  end.

End Server.

End MCPServer.

(* ================================================================== *)
(** ** A concrete host, for running the definitions

    The clock starts at 2025-01-01T00:00:00Z and advances one millisecond per
    reading; dates are accepted in the form YYYY-MM-DD, with or without a
    time part; the renderings are fixed or plain decimal.  Nothing proved
    below for every host depends on these choices. *)

Module SampleHost.

(** Ten characters YYYY-MM-DD, alone or followed by a time part. *)
Definition parse_date (s : string) : option Z :=
  match s with
  | String y1 (String y2 (String y3 (String y4 (String "-"
      (String m1 (String m2 (String "-" (String d1 (String d2 rest))))))))) =>
      if forallb is_digit [y1; y2; y3; y4; m1; m2; d1; d2]
      then match rest with
           | EmptyString => Some 1735689600000
           | String "T" _ => Some 1738281600000
           | _ => None
           end
      else None
  | _ => None
  end.

#[export] Instance host : Host := {|
  Date_now := fun k => 1735689600000 + Z.of_nat k;
  Math_random_suffix := fun _ => "k3x9f";
  Date_parse := parse_date;
  Date_toISOString := fun _ => "2025-01-31T00:00:00.000Z";
  Date_toLocaleDateString :=
    fun d => match d with Some _ => "1/31/2025" | None => "Invalid Date" end;
  Number_toLocaleString := fun x => Z_toString (toZ x);
  Number_toString := fun _ => "n"
|}.

Definition world0 : World := mkWorld 0 0.

Definition request (tariff : string) (family drones : bool) (ded claims : Z)
  (cancelled : bool) (cov : option Z) : LiabilityConfiguration :=
  {| zipCode := "10115";
     tariffLine := tariff;
     familyCoverage := family;
     dronesCoverage := drones;
     deductibleAmount := ded;
     previousInsurance := false;
     numberOfClaims := ofZ claims;
     cancelledByInsurer := cancelled;
     effectiveDate := "2025-01-01";
     coverageAmount := option_map ofZ cov |}.

(** Requests used to run the definitions. *)

Definition worked_example : LiabilityConfiguration :=
  request "comfort" true false 150 1 false None.

Definition zero_coverage : LiabilityConfiguration :=
  request "comfort" false false 0 0 false (Some 0).


Definition short_zipCode : LiabilityConfiguration :=
  {| zipCode := "1234";
     tariffLine := "comfort";
     familyCoverage := false;
     dronesCoverage := false;
     deductibleAmount := 0;
     previousInsurance := false;
     numberOfClaims := ofZ 0;
     cancelledByInsurer := false;
     effectiveDate := "2025-01-01";
     coverageAmount := None |}.

Definition short_zipCode_zero_coverage : LiabilityConfiguration :=
  {| zipCode := "1234";
     tariffLine := "comfort";
     familyCoverage := false;
     dronesCoverage := false;
     deductibleAmount := 0;
     previousInsurance := false;
     numberOfClaims := ofZ 0;
     cancelledByInsurer := false;
     effectiveDate := "2025-01-01";
     coverageAmount := Some (ofZ 0) |}.

Definition drones_and_family : LiabilityConfiguration :=
  request "comfort" true true 0 0 false None.

Definition plain_comfort : LiabilityConfiguration :=
  request "comfort" false false 0 0 false None.

Definition loaded_premium : LiabilityConfiguration :=
  request "premium" true true 0 10 true None.

(** The premiums and the coverage sum of the quote for a request. *)
Definition premiums_of (params : LiabilityConfiguration)
  : option (number * number * number) :=
  match LiabilityClient.calculateQuote params world0 with
  | (Returned q, _) => Some (monthlyPremium q, annualPremium q, coverageSum q)
  | (Threw _, _) => None
  end.

End SampleHost.

(** A concrete protocol: the arguments are already typed, the schema accepts
    them unless the zipCode is empty, and the serialisations are short
    tags. *)
Module SampleProtocol.

#[export] Instance protocol : MCPServer.Protocol := {|
  MCPServer.RawArguments := LiabilityConfiguration;
  MCPServer.inputSchema_parse :=
    fun raw =>
      if truthy_str (zipCode raw) then Returned raw
      else Threw (OtherError "Required");
  MCPServer.JSON_stringify_result :=
    fun r => if success r then "result: success" else "result: failure";
  MCPServer.JSON_stringify_failure := fun message => "failure: " ++ message
|}.

Definition server0 : @MCPServer.ServerState protocol :=
  MCPServer.mkServer SampleHost.world0 [].

(** A call of a tool that is not registered, and a call of the registered
    tool with a four-digit zipCode. *)
Definition weather_call : @MCPServer.CallToolRequest protocol :=
  @MCPServer.mkRequest protocol "get_weather" SampleHost.plain_comfort.

Definition short_zipCode_call : @MCPServer.CallToolRequest protocol :=
  @MCPServer.mkRequest protocol "get_liability_quote" SampleHost.short_zipCode.

End SampleProtocol.

(* ================================================================== *)
(** ** Properties *)

Import LiabilityClient LiabilityQuoteTool.

(** The error list a validation result carries: the array, or none. *)
Definition reported (r : ValidationResult) : list string :=
  match errors r with
  | Some l => l
  | None => []
  end.

(** The request with one field replaced, the others held. *)
Definition with_numberOfClaims (n : number) (params : LiabilityConfiguration)
  : LiabilityConfiguration :=
  {| zipCode := zipCode params;
     tariffLine := tariffLine params;
     familyCoverage := familyCoverage params;
     dronesCoverage := dronesCoverage params;
     deductibleAmount := deductibleAmount params;
     previousInsurance := previousInsurance params;
     numberOfClaims := n;
     cancelledByInsurer := cancelledByInsurer params;
     effectiveDate := effectiveDate params;
     coverageAmount := coverageAmount params |}.

Definition with_coverageAmount (c : option number)
  (params : LiabilityConfiguration)
  : LiabilityConfiguration :=
  {| zipCode := zipCode params;
     tariffLine := tariffLine params;
     familyCoverage := familyCoverage params;
     dronesCoverage := dronesCoverage params;
     deductibleAmount := deductibleAmount params;
     previousInsurance := previousInsurance params;
     numberOfClaims := numberOfClaims params;
     cancelledByInsurer := cancelledByInsurer params;
     effectiveDate := effectiveDate params;
     coverageAmount := c |}.


(** The number zero, and the comparison [x >= 0]. *)
Definition zero : number := ofZ 0.
Definition nonnegative (x : number) : bool := ge x zero.

(** *** Premiums as whole cents, and the priced fields *)

(** [Math.round(x * 100)] as an integer: the amount in cents. *)
Definition cents (x : number) : Z := toZ (Math_round (mul x (ofZ 100))).

Definition monthly_cents (params : LiabilityConfiguration) : Z :=
  cents (raw_monthlyPremium params).

Definition annual_cents (params : LiabilityConfiguration) : Z :=
  cents (mul (raw_monthlyPremium params) (ofZ 12)).

(** Equality of two numbers as data. *)
Definition number_eqb (x y : number) : bool :=
  match x, y with
  | S754_zero s, S754_zero s' => Bool.eqb s s'
  | S754_infinity s, S754_infinity s' => Bool.eqb s s'
  | S754_nan, S754_nan => true
  | S754_finite s m e, S754_finite s' m' e' =>
      Bool.eqb s s' && Pos.eqb m m' && Z.eqb e e'
  | _, _ => false
  end.

(** A request with the six fields that [calculateQuote] prices, and nothing
    else of note. *)
Definition priced (tariff : string) (family drones : bool) (ded : Z)
  (claims : number) (cancelled : bool) : LiabilityConfiguration :=
  {| zipCode := EmptyString;
     tariffLine := tariff;
     familyCoverage := family;
     dronesCoverage := drones;
     deductibleAmount := ded;
     previousInsurance := false;
     numberOfClaims := claims;
     cancelledByInsurer := cancelled;
     effectiveDate := EmptyString;
     coverageAmount := None |}.

Definition priced_of (params : LiabilityConfiguration) : LiabilityConfiguration :=
  priced (tariffLine params) (familyCoverage params) (dronesCoverage params)
         (deductibleAmount params) (numberOfClaims params)
         (cancelledByInsurer params).

Definition tariffs : list string := ["basic"; "comfort"; "premium"].
Definition deductibles : list Z := [0; 150; 300; 500].
Definition flags : list bool := [false; true].

(** The whole numbers of claims that validation admits.  (It admits every
    number that is neither below 0 nor above 10, whole or not, and NaN.) *)
Definition claim_counts : list Z := [0; 1; 2; 3; 4; 5; 6; 7; 8; 9; 10].

(** A test run on every combination of tariff line, options, deductible and
    whole number of claims that validation admits. *)
Definition for_all_priced
  (P : string -> bool -> bool -> Z -> Z -> bool -> bool) : bool :=
  forallb (fun t =>
  forallb (fun f =>
  forallb (fun d =>
  forallb (fun ded =>
  forallb (fun k =>
  forallb (fun c => P t f d ded k c) flags) claim_counts) deductibles)
          flags) flags) tariffs.

(** The order of the tariff lines, and of option flags. *)
Definition tariff_rank (t : string) : Z :=
  if String.eqb t "basic" then 0
  else if String.eqb t "comfort" then 1
  else if String.eqb t "premium" then 2
  else -1.

Definition flag_le (a b : bool) : bool := implb a b.

(** The monthly premium of the quote: [Math.round(monthlyPremium * 100) / 100]. *)
Definition price (params : LiabilityConfiguration) : number :=
  round2 (raw_monthlyPremium params).

(** Tests run on the admitted combinations (see [for_all_priced]). *)

Definition whole_cents_test (t : string) (f d : bool) (ded k : Z) (c : bool)
  : bool :=
  let p := priced t f d ded (ofZ k) c in
  number_eqb (round2 (raw_monthlyPremium p)) (lit (monthly_cents p) 100)
  && number_eqb (round2 (mul (raw_monthlyPremium p) (ofZ 12)))
                (lit (annual_cents p) 100).

Definition cents_range_test (t : string) (f d : bool) (ded k : Z) (c : bool)
  : bool :=
  let p := priced t f d ded (ofZ k) c in
  let m := monthly_cents p in
  let a := annual_cents p in
  (479 <=? m) && (m <=? 8120) && (5750 <=? a) && (a <=? 97442)
  && (-6 <=? a - 12 * m) && (a - 12 * m <=? 6).

Definition claims_test (t : string) (f d : bool) (ded k : Z) (c : bool)
  : bool :=
  let m := price (priced t f d ded (ofZ k) c) in
  forallb (fun k' =>
             if k <? k'
             then lt m (price (priced t f d ded (ofZ k') c))
             else true) claim_counts.

Definition options_test (t : string) (f d : bool) (ded k : Z) (c : bool)
  : bool :=
  let m := price (priced t f d ded (ofZ k) c) in
  forallb (fun f' => forallb (fun d' => forallb (fun c' =>
    if flag_le f f' && flag_le d d' && flag_le c c'
    then
      if Bool.eqb f f' && Bool.eqb d d' && Bool.eqb c c'
      then true
      else lt m (price (priced t f' d' ded (ofZ k) c'))
    else true) flags) flags) flags.

Definition deductible_test (t : string) (f d : bool) (ded k : Z) (c : bool)
  : bool :=
  let m := price (priced t f d ded (ofZ k) c) in
  forallb (fun ded' =>
             if ded <? ded'
             then lt (price (priced t f d ded' (ofZ k) c)) m
             else true) deductibles.

Definition tariff_test (t : string) (f d : bool) (ded k : Z) (c : bool)
  : bool :=
  let m := price (priced t f d ded (ofZ k) c) in
  forallb (fun t' =>
             if tariff_rank t <? tariff_rank t'
             then lt m (price (priced t' f d ded (ofZ k) c))
             else true) tariffs.

(** The running premium after the deductible discount: the first four steps
    of [raw_monthlyPremium], which read the tariff line, the two coverage
    flags and the deductible. *)
Definition discounted (tariff : string) (family drones : bool) (ded : Z)
  : number :=
  let monthlyPremium := ToNumber (get_str basePremiums tariff) in
  let monthlyPremium :=
    if family then mul monthlyPremium (lit 15 10) else monthlyPremium in
  let monthlyPremium :=
    if drones then add monthlyPremium (lit 250 100) else monthlyPremium in
  mul monthlyPremium (ToNumber (get_Z deductibleDiscounts ded)).

(** *** Numbers that are not negative

    The zero, the finite numbers and the infinity of sign [+]: the numbers
    [x] with [x >= 0]. *)
Definition plus (x : number) : bool :=
  match x with
  | S754_zero false => true
  | S754_finite false _ _ => true
  | S754_infinity false => true
  | _ => false
  end.

(** The finite numbers above zero. *)
Definition finite_plus (x : number) : bool :=
  match x with
  | S754_finite false _ _ => true
  | _ => false
  end.

(** *** The rules of the validator in the words of its specification *)

(** "If [coverageAmount] is present, it must lie within
    [5,000,000, 20,000,000]": the rule is violated by a present amount that
    does not. *)
Definition coverage_rule_violated (params : LiabilityConfiguration) : Prop :=
  exists v, coverageAmount params = Some v
            /\ ~ (ge v (ofZ 5000000) = true /\ le v (ofZ 20000000) = true).

(** "[zipCode] must be exactly 5 characters and match the all-digits
    pattern." *)
Definition zipCode_rule_violated (params : LiabilityConfiguration) : Prop :=
  ~ (String.length (zipCode params) = 5%nat
     /\ forall c, In c (list_ascii_of_string (zipCode params)) ->
                  (48 <= nat_of_ascii c <= 57)%nat).

(** A string in which no underscore occurs. *)
Definition no_underscore (s : string) : Prop :=
  forall c, In c (list_ascii_of_string s) -> c <> "_"%char.

(* ================================================================== *)
(** ** Facts about binary64 numbers *)

Section NumberFacts.

(** *** Comparison *)

Lemma SFcompare_antisym (x y : number) :
  SFcompare y x = option_map CompOpp (SFcompare x y).
Proof.
  destruct x as [sx | sx | | sx mx ex], y as [sy | sy | | sy my ey];
    simpl; try reflexivity;
    try (destruct sx; reflexivity); try (destruct sy; reflexivity);
    try (destruct sx, sy; reflexivity).
  destruct sx, sy; simpl; try reflexivity;
    rewrite (Z.compare_antisym ex ey);
    destruct (ex ?= ey); simpl; try reflexivity;
    repeat f_equal; symmetry;
    exact (Pos.compare_cont_antisym mx my Eq).
Qed.

Lemma ge_lt (x c : number) : ge x c = true -> lt x c = false.
Proof.
  unfold ge, lt, SFleb, SFltb. rewrite (SFcompare_antisym c x).
  destruct (SFcompare c x) as [[| |] |]; simpl; congruence.
Qed.

Lemma le_gt (x c : number) : le x c = true -> gt x c = false.
Proof.
  unfold le, gt, SFleb, SFltb. rewrite (SFcompare_antisym x c).
  destruct (SFcompare x c) as [[| |] |]; simpl; congruence.
Qed.

Lemma not_lt_ge (x c : number) :
  isNaN x = false -> isNaN c = false -> lt x c = false -> ge x c = true.
Proof.
  unfold ge, lt, SFleb, SFltb. rewrite (SFcompare_antisym c x).
  intros Hx Hc.
  assert (Hsome : SFcompare c x <> None)
    by (destruct x, c; simpl in *; try discriminate; congruence).
  destruct (SFcompare c x) as [[| |] |]; simpl; congruence.
Qed.

Lemma not_gt_le (x c : number) :
  isNaN x = false -> isNaN c = false -> gt x c = false -> le x c = true.
Proof.
  unfold le, gt, SFleb, SFltb. rewrite (SFcompare_antisym x c).
  intros Hx Hc.
  assert (Hsome : SFcompare x c <> None)
    by (destruct x, c; simpl in *; try discriminate; congruence).
  destruct (SFcompare x c) as [[| |] |]; simpl; congruence.
Qed.

Lemma lt_NaN (c : number) : lt NaN c = false /\ gt NaN c = false.
Proof. split; [reflexivity | destruct c; reflexivity]. Qed.

(** A number below zero is not above ten. *)
Lemma lt_zero_not_gt_ten (x : number) :
  lt x (ofZ 0) = true -> gt x (ofZ 10) = false.
Proof.
  destruct x as [s | s | | s m e]; try discriminate.
  - destruct s; [reflexivity | discriminate].
  - destruct s; [reflexivity | discriminate].
Qed.

(** *** Signs: what is not negative stays so *)

Lemma plus_nonnegative (x : number) : plus x = true -> ge x (ofZ 0) = true.
Proof.
  destruct x as [s | s | | s m e]; simpl; try discriminate;
    destruct s; try discriminate; reflexivity.
Qed.

Lemma finite_plus_plus (x : number) : finite_plus x = true -> plus x = true.
Proof.
  destruct x as [s | s | | s m e]; simpl; try discriminate.
  destruct s; congruence.
Qed.

Lemma gt_zero_plus (x : number) :
  gt x (ofZ 0) = true ->
  plus x = true /\ (finite_plus x = true \/ x = S754_infinity false).
Proof.
  destruct x as [s | s | | s m e]; try discriminate.
  - destruct s; [discriminate | auto].
  - destruct s; [discriminate | simpl; auto].
Qed.

Lemma shr_1_nonneg (mrs : shr_record) :
  0 <= shr_m mrs -> 0 <= shr_m (shr_1 mrs).
Proof.
  destruct mrs as [m r s]. simpl.
  destruct m as [| p | p]; simpl; intros Hm.
  - lia.
  - destruct p; simpl; lia.
  - lia.
Qed.

Lemma iter_shr_1_nonneg (p : positive) (mrs : shr_record) :
  0 <= shr_m mrs -> 0 <= shr_m (iter_pos shr_1 p mrs).
Proof.
  revert mrs. induction p as [p IH | p IH |]; intros mrs Hm; simpl.
  - apply IH, IH, shr_1_nonneg, Hm.
  - apply IH, IH, Hm.
  - apply shr_1_nonneg, Hm.
Qed.

Lemma shr_fexp_nonneg (m e : Z) (l : location) :
  0 <= m -> 0 <= shr_m (fst (shr_fexp prec emax m e l)).
Proof.
  intros Hm. unfold shr_fexp, shr.
  assert (H0 : 0 <= shr_m (shr_record_of_loc m l))
    by (destruct l as [| []]; exact Hm).
  destruct (fexp prec emax (Zdigits2 m + e) - e) as [| p | p]; simpl;
    [exact H0 | apply iter_shr_1_nonneg; exact H0 | exact H0].
Qed.

Lemma round_nearest_even_nonneg (m : Z) (l : location) :
  0 <= m -> 0 <= round_nearest_even m l.
Proof.
  intros Hm. destruct l as [| []]; simpl; try lia.
  destruct (Z.even m); lia.
Qed.

Lemma binary_round_aux_plus (m e : Z) (l : location) :
  0 <= m -> plus (binary_round_aux prec emax false m e l) = true.
Proof.
  intros Hm. unfold binary_round_aux.
  pose proof (shr_fexp_nonneg m e l Hm) as H1.
  destruct (shr_fexp prec emax m e l) as [mrs' e'] eqn:E1. simpl in H1.
  pose proof (shr_fexp_nonneg
                (round_nearest_even (shr_m mrs') (loc_of_shr_record mrs'))
                e' loc_Exact
                (round_nearest_even_nonneg _ _ H1)) as H2.
  destruct (shr_fexp prec emax
              (round_nearest_even (shr_m mrs') (loc_of_shr_record mrs'))
              e' loc_Exact) as [mrs'' e''] eqn:E2.
  simpl in H2.
  destruct (shr_m mrs'') as [| p | p]; [reflexivity | | lia].
  destruct (e'' <=? emax - prec); reflexivity.
Qed.

Lemma binary_round_plus (m : positive) (e : Z) :
  plus (binary_round prec emax false m e) = true.
Proof.
  unfold binary_round.
  destruct (shl_align m e (fexp prec emax (Z.pos (digits2_pos m) + e)))
    as [mz ez].
  apply binary_round_aux_plus. lia.
Qed.

Lemma binary_normalize_plus (m e : Z) :
  0 <= m -> plus (binary_normalize prec emax m e false) = true.
Proof.
  intros Hm. destruct m as [| p | p]; simpl;
    [reflexivity | apply binary_round_plus | lia].
Qed.

Lemma mul_plus_l (x y : number) :
  finite_plus x = true -> plus y = true -> plus (mul x y) = true.
Proof.
  destruct x as [sx | sx | | sx mx ex]; try discriminate.
  destruct sx; try discriminate. intros _.
  destruct y as [sy | sy | | sy my ey]; try discriminate;
    destruct sy; try discriminate; intros _; try reflexivity.
  unfold mul, SFmul. simpl xorb.
  apply binary_round_aux_plus. lia.
Qed.

Lemma mul_plus_r (x y : number) :
  plus x = true -> finite_plus y = true -> plus (mul x y) = true.
Proof.
  destruct y as [sy | sy | | sy my ey]; try discriminate.
  destruct sy; try discriminate. intros Hx _.
  destruct x as [sx | sx | | sx mx ex]; try discriminate;
    destruct sx; try discriminate; try reflexivity.
  unfold mul, SFmul. simpl xorb.
  apply binary_round_aux_plus. lia.
Qed.

Lemma add_plus (x y : number) :
  plus x = true -> plus y = true -> plus (add x y) = true.
Proof.
  destruct x as [sx | sx | | sx mx ex]; try discriminate;
    destruct sx; try discriminate; intros _;
    destruct y as [sy | sy | | sy my ey]; try discriminate;
    destruct sy; try discriminate; intros _; try reflexivity.
  unfold add, SFadd. simpl cond_Zopp.
  apply binary_normalize_plus. lia.
Qed.

Lemma div_plus (x y : number) :
  plus x = true -> finite_plus y = true -> plus (div x y) = true.
Proof.
  destruct y as [sy | sy | | sy my ey]; try discriminate.
  destruct sy; try discriminate. intros Hx _.
  destruct x as [sx | sx | | sx mx ex]; try discriminate;
    destruct sx; try discriminate; try reflexivity.
  unfold div, SFdiv. simpl xorb.
  destruct (SFdiv_core_binary prec emax (Z.pos mx) ex (Z.pos my) ey)
    as [[mz ez] lz] eqn:E.
  apply binary_round_aux_plus.
  unfold SFdiv_core_binary in E.
  set (s := ex - ey -
            Z.min (fexp prec emax (Zdigits2 (Z.pos mx) + ex
                                   - (Zdigits2 (Z.pos my) + ey)))
                  (ex - ey)) in E.
  set (m' := match s with
             | 0 => Z.pos mx
             | Z.pos _ => Z.shiftl (Z.pos mx) s
             | Z.neg _ => 0
             end) in E.
  assert (Hm' : 0 <= m').
  { unfold m'. destruct s; try lia. apply Z.shiftl_nonneg. lia. }
  pose proof (Z.div_pos m' (Z.pos my) Hm' ltac:(lia)) as Hq.
  unfold Z.div in Hq.
  destruct (Z.div_eucl m' (Z.pos my)) as [q r]. simpl in Hq.
  inversion E; subst. exact Hq.
Qed.

Lemma ofZ_plus (z : Z) : 0 <= z -> plus (ofZ z) = true.
Proof. intros Hz. apply binary_normalize_plus. exact Hz. Qed.

Lemma Math_round_plus (x : number) :
  plus x = true -> plus (Math_round x) = true.
Proof.
  destruct x as [s | s | | s m e]; try discriminate;
    destruct s; try discriminate; intros _; try reflexivity.
  unfold Math_round.
  set (n := if 0 <=? e then Z.pos m * 2 ^ e
            else (2 * Z.pos m + 2 ^ (- e)) / (2 * 2 ^ (- e))).
  assert (Hn : 0 <= n).
  { unfold n. destruct (0 <=? e) eqn:He.
    - apply Z.leb_le in He. apply Z.mul_nonneg_nonneg; [lia |].
      apply Z.pow_nonneg. lia.
    - apply Z.leb_gt in He.
      assert (0 < 2 ^ (- e)) by (apply Z.pow_pos_nonneg; lia).
      apply Z.div_pos; lia. }
  destruct (n =? 0); [reflexivity | apply ofZ_plus; exact Hn].
Qed.

Lemma round2_plus (x : number) : plus x = true -> plus (round2 x) = true.
Proof.
  intros Hx. unfold round2.
  apply div_plus; [| reflexivity].
  apply Math_round_plus. apply mul_plus_r; [exact Hx | reflexivity].
Qed.

End NumberFacts.

Section Properties.
Context `{Host}.

(** The seven checks in source order, each with the message it pushes. *)
Definition checks (params : LiabilityConfiguration) : list (bool * string) :=
  [ (bad_zipCode params, msg_zipCode);
    (bad_tariffLine params, msg_tariffLine);
    (bad_deductibleAmount params, msg_deductibleAmount);
    (claims_negative params, msg_claims_negative);
    (claims_exceed params, msg_claims_exceed);
    (bad_effectiveDate params, msg_effectiveDate);
    (bad_coverageAmount params, msg_coverageAmount) ].

Definition check_order : list string :=
  [ msg_zipCode; msg_tariffLine; msg_deductibleAmount; msg_claims_negative;
    msg_claims_exceed; msg_effectiveDate; msg_coverageAmount ].

Ltac split_checks params :=
  destruct (bad_zipCode params), (bad_tariffLine params),
    (bad_deductibleAmount params), (claims_negative params),
    (claims_exceed params), (bad_effectiveDate params),
    (bad_coverageAmount params).

Lemma collect_errors_filter (params : LiabilityConfiguration) :
  collect_errors params = map snd (filter fst (checks params)).
Proof.
  unfold collect_errors, checks, push.
  split_checks params; reflexivity.
Qed.

Lemma reported_validateInput (params : LiabilityConfiguration) :
  reported (validateInput params) = collect_errors params.
Proof.
  unfold reported, validateInput; simpl.
  destruct (collect_errors params); reflexivity.
Qed.

Lemma valid_validateInput (params : LiabilityConfiguration) :
  valid (validateInput params) = true <-> collect_errors params = [].
Proof.
  unfold validateInput; simpl.
  destruct (collect_errors params); simpl; split; congruence.
Qed.

Lemma valid_all_checks_pass (params : LiabilityConfiguration) :
  valid (validateInput params) = true <->
  forallb (fun c => negb (fst c)) (checks params) = true.
Proof.
  rewrite valid_validateInput, collect_errors_filter.
  unfold checks.
  split_checks params; simpl; split; congruence.
Qed.

Lemma errors_validateInput (params : LiabilityConfiguration) :
  errors (validateInput params) =
  if valid (validateInput params) then None else Some (collect_errors params).
Proof.
  unfold validateInput; simpl.
  destruct (collect_errors params); reflexivity.
Qed.

Lemma In_existsb (m : string) (l : list string) :
  In m l <-> existsb (String.eqb m) l = true.
Proof.
  rewrite existsb_exists; split.
  - intros HIn; exists m; split; [exact HIn | apply String.eqb_refl].
  - intros [x [HIn Heq]]; apply String.eqb_eq in Heq; subst; exact HIn.
Qed.

Lemma check_message_reported (params : LiabilityConfiguration) (c : bool * string) :
  In c (checks params) ->
  (In (snd c) (collect_errors params) <-> fst c = true).
Proof.
  intros Hc. rewrite In_existsb, collect_errors_filter.
  unfold checks in *. simpl in Hc.
  repeat (destruct Hc as [Hc | Hc]; [subst c; simpl fst; simpl snd |]);
    try contradiction;
    split_checks params; simpl; split; intros; try reflexivity;
    try discriminate.
Qed.

(** [validateInput] runs all seven tests whatever the others found: the
    reported list is the fixed sequence of the seven messages (zipCode,
    tariffLine, deductibleAmount, claims negative, claims above 10,
    effectiveDate, coverageAmount) with exactly the messages of the tests
    that fired kept, in that order, and [valid] is true iff nothing was
    reported.  (The tests are the conditions of the code; whether they are
    the rules of the specification is another matter, see C2 and C4.) *)
Lemma fired_tests_reported_in_order (params : LiabilityConfiguration) :
  reported (validateInput params) = map snd (filter fst (checks params))
  /\ map snd (checks params) = check_order
  /\ (forall c, In c (checks params) ->
        (In (snd c) (reported (validateInput params)) <-> fst c = true))
  /\ (valid (validateInput params) = true <->
        reported (validateInput params) = []).
Proof.
  rewrite reported_validateInput.
  split; [apply collect_errors_filter |].
  split; [reflexivity |].
  split.
  - intros c Hc. apply check_message_reported. exact Hc.
  - apply valid_validateInput.
Qed.

(** A request is valid exactly when none of the seven tests fires. *)
Lemma valid_seven_tests (params : LiabilityConfiguration) :
  valid (validateInput params) = true <->
  bad_zipCode params = false
  /\ bad_tariffLine params = false
  /\ bad_deductibleAmount params = false
  /\ claims_negative params = false
  /\ claims_exceed params = false
  /\ bad_effectiveDate params = false
  /\ bad_coverageAmount params = false.
Proof.
  rewrite valid_validateInput, collect_errors_filter. unfold checks.
  split_checks params; simpl; split; intros Hx;
    try reflexivity; try discriminate;
    try (repeat split; reflexivity);
    decompose [and] Hx; discriminate.
Qed.

(** *** [calculateQuote]: the two paths *)

Lemma calculateQuote_invalid (params : LiabilityConfiguration) (w : World) :
  valid (validateInput params) = false ->
  calculateQuote params w =
  (Threw (ValidationError "Invalid parameters" (Some (collect_errors params))), w).
Proof.
  intros Hv. unfold calculateQuote.
  rewrite errors_validateInput, Hv. reflexivity.
Qed.

Lemma calculateQuote_valid (params : LiabilityConfiguration) (w : World) :
  valid (validateInput params) = true ->
  exists q,
    calculateQuote params w =
    (Returned q, mkWorld (2 + clock_reads w) (1 + random_draws w))
    /\ monthlyPremium q = round2 (raw_monthlyPremium params)
    /\ annualPremium q = round2 (mul (raw_monthlyPremium params) (ofZ 12))
    /\ coverageSum q = resolve_coverage params
    /\ extensions q = build_extensions params.
Proof.
  intros Hv. unfold calculateQuote. rewrite Hv. simpl.
  eexists. split; [reflexivity |]. simpl. repeat split.
Qed.

(** What a passed validation tells about the priced fields. *)
Lemma valid_priced_fields (params : LiabilityConfiguration) :
  valid (validateInput params) = true ->
  In (tariffLine params) ["basic"; "comfort"; "premium"]
  /\ In (deductibleAmount params) [0; 150; 300; 500]
  /\ (lt (numberOfClaims params) (ofZ 0) = false
      /\ gt (numberOfClaims params) (ofZ 10) = false).
Proof.
  intros Hv. apply valid_seven_tests in Hv.
  destruct Hv as [_ [Ht [Hd [Hn [He _]]]]].
  split; [| split; [| split; [exact Hn | exact He]]].
  - unfold bad_tariffLine in Ht. apply negb_false_iff in Ht.
    unfold includes_str in Ht. apply existsb_exists in Ht.
    destruct Ht as [x [HIn Heq]]. apply String.eqb_eq in Heq. subst x.
    exact HIn.
  - unfold bad_deductibleAmount in Hd. apply negb_false_iff in Hd.
    unfold includes_Z in Hd. apply existsb_exists in Hd.
    destruct Hd as [x [HIn Heq]]. apply Z.eqb_eq in Heq. subst x.
    exact HIn.
Qed.

(** After validation both tariff tables and the discount table have the
    key that [calculateQuote] looks up. *)
Lemma valid_tariff_in_tables (params : LiabilityConfiguration) :
  valid (validateInput params) = true ->
  get_str coverageAmounts (tariffLine params) <> None
  /\ get_str basePremiums (tariffLine params) <> None
  /\ get_Z deductibleDiscounts (deductibleAmount params) <> None.
Proof.
  intros Hv. destruct (valid_priced_fields params Hv) as [Ht [Hd _]].
  simpl in Ht, Hd.
  repeat split.
  - decompose [or] Ht; try contradiction;
      match goal with Hx : _ = tariffLine params |- _ => rewrite <- Hx end;
      discriminate.
  - decompose [or] Ht; try contradiction;
      match goal with Hx : _ = tariffLine params |- _ => rewrite <- Hx end;
      discriminate.
  - decompose [or] Hd; try contradiction;
      match goal with Hx : _ = deductibleAmount params |- _ => rewrite <- Hx end;
      discriminate.
Qed.

(** C3: [calculateQuote] throws exactly when [validateInput] reports the
    request invalid; what it throws is then a [ValidationError] whose details
    are the error array of [validateInput], unchanged and in order, and the
    world is left as it was (no clock reading, no random draw: the pricing
    part has not run, and no quote exists).  When the request is valid,
    [calculateQuote] returns a quote. *)
Theorem C3_calculateQuote_throws_iff_invalid
  (params : LiabilityConfiguration) (w : World) :
  (valid (validateInput params) = false <->
     calculateQuote params w =
     (Threw (ValidationError "Invalid parameters"
                             (errors (validateInput params))), w))
  /\ (valid (validateInput params) = true <->
       exists q w', calculateQuote params w = (Returned q, w'))
  /\ (forall e w', calculateQuote params w = (Threw e, w') ->
       e = ValidationError "Invalid parameters"
                           (Some (reported (validateInput params)))
       /\ reported (validateInput params) <> []
       /\ w' = w).
Proof.
  assert (Herr : errors (validateInput params) =
                 if valid (validateInput params) then None
                 else Some (reported (validateInput params))).
  { rewrite reported_validateInput. apply errors_validateInput. }
  destruct (valid (validateInput params)) eqn:Hv.
  - destruct (calculateQuote_valid params w Hv) as [q [Hq _]].
    split; [| split].
    + split; [discriminate | rewrite Hq; discriminate].
    + split; [intros _; exists q; eexists; exact Hq | reflexivity].
    + intros e w' He. rewrite Hq in He. discriminate.
  - pose proof (calculateQuote_invalid params w Hv) as Ht.
    rewrite <- reported_validateInput in Ht.
    split; [| split].
    + split; [intros _; rewrite Herr; exact Ht | reflexivity].
    + split; [discriminate |].
      intros [q [w' Hq]]. rewrite Ht in Hq. discriminate.
    + intros e w' He. rewrite Ht in He. inversion He; subst.
      split; [reflexivity | split; [| reflexivity]].
      rewrite reported_validateInput. intros Hnil.
      apply valid_validateInput in Hnil. congruence.
Qed.

(** Every message of the validator is a non-empty string, so a non-empty
    error array joins to a non-empty string. *)
Lemma join_collect_errors_truthy (params : LiabilityConfiguration) :
  collect_errors params <> [] ->
  truthy_str (join ", " (collect_errors params)) = true.
Proof.
  rewrite collect_errors_filter. unfold checks.
  split_checks params; simpl; intros Hne; try reflexivity; congruence.
Qed.

Lemma handler_invalid (params : LiabilityConfiguration) (w : World) :
  valid (validateInput params) = false ->
  handler params w =
  (Returned {| success := false;
               quote := None;
               error := Some "Validation error: Invalid parameters";
               summary := "Failed to calculate quote: "
                          ++ join ", " (collect_errors params) |}, w).
Proof.
  intros Hv. unfold handler, handler_of, try_catch, bind.
  unfold new_LiabilityClient, client_calculateQuote.
  rewrite (calculateQuote_invalid params w Hv).
  unfold ret, on_error, details_or_message.
  rewrite join_collect_errors_truthy; [reflexivity |].
  intros Hnil. apply valid_validateInput in Hnil. congruence.
Qed.


(** C10: whenever validation fails, the thrown [ValidationError] has the
    message ["Invalid parameters"], and the envelope's error field is exactly
    ["Validation error: Invalid parameters"] whichever rules were violated;
    the rule messages are in the summary, and none of them is the error
    field. *)
Theorem C10_validation_error_field_is_constant
  (params : LiabilityConfiguration) (w : World)
  (Hinvalid : valid (validateInput params) = false) :
  (exists details,
     calculateQuote params w =
     (Threw (ValidationError "Invalid parameters" details), w))
  /\ (exists r,
       handler params w = (Returned r, w)
       /\ success r = false
       /\ error r = Some "Validation error: Invalid parameters"
       /\ summary r = "Failed to calculate quote: "
                      ++ join ", " (reported (validateInput params))
       /\ (forall m, In m check_order -> error r <> Some m)).
Proof.
  split.
  - eexists. apply calculateQuote_invalid. exact Hinvalid.
  - eexists. split; [apply handler_invalid; exact Hinvalid |].
    simpl. rewrite reported_validateInput. repeat split.
    intros m Hm. unfold check_order in Hm. simpl in Hm.
    decompose [or] Hm; try contradiction; subst m; discriminate.
Qed.

(** C6: for a valid request the quote's extensions hold ["drones_coverage"]
    iff [dronesCoverage] is set and ["family_coverage"] iff [familyCoverage]
    is set, hold nothing else, and have the drone entry before the family
    entry when both are there. *)
Theorem C6_extensions_of_valid_request
  (params : LiabilityConfiguration) (w : World)
  (Hvalid : valid (validateInput params) = true) :
  exists q w',
    calculateQuote params w = (Returned q, w')
    /\ (In "drones_coverage" (extensions q) <-> dronesCoverage params = true)
    /\ (In "family_coverage" (extensions q) <-> familyCoverage params = true)
    /\ (forall x, In x (extensions q) ->
          x = "drones_coverage" \/ x = "family_coverage")
    /\ extensions q =
         ((if dronesCoverage params then ["drones_coverage"] else [])
          ++ (if familyCoverage params then ["family_coverage"] else []))%list.
Proof.
  destruct (calculateQuote_valid params w Hvalid) as [q [Hq [_ [_ [_ Hext]]]]].
  exists q. eexists. split; [exact Hq |].
  rewrite Hext. unfold build_extensions, push.
  destruct (dronesCoverage params), (familyCoverage params); simpl;
    repeat split; intros; try reflexivity; try discriminate;
    intuition (try discriminate; auto).
Qed.

(** *** Pricing *)

(** The unrounded monthly premium of a valid request is not negative: the
    amount after the deductible discount is one of 48 finite amounts above
    zero, and the surcharges multiply it by numbers that are not negative,
    whatever number of claims validation let through. *)
Lemma discounted_finite_plus (t : string) (f d : bool) (ded : Z) :
  In t ["basic"; "comfort"; "premium"] -> In ded [0; 150; 300; 500] ->
  finite_plus (discounted t f d ded) = true.
Proof.
  intros Ht Hd. simpl in Ht, Hd.
  decompose [or] Ht; try contradiction; subst t;
    decompose [or] Hd; try contradiction; subst ded;
    destruct f, d; vm_compute; reflexivity.
Qed.

Lemma raw_monthlyPremium_stages (params : LiabilityConfiguration) :
  raw_monthlyPremium params =
  let m := discounted (tariffLine params) (familyCoverage params)
                      (dronesCoverage params) (deductibleAmount params) in
  let m := if gt (numberOfClaims params) (ofZ 0)
           then mul m (add (ofZ 1) (mul (numberOfClaims params) (lit 15 100)))
           else m in
  if cancelledByInsurer params then mul m (lit 13 10) else m.
Proof. reflexivity. Qed.

Lemma raw_monthlyPremium_plus (params : LiabilityConfiguration) :
  valid (validateInput params) = true ->
  plus (raw_monthlyPremium params) = true.
Proof.
  intros Hvalid.
  destruct (valid_priced_fields params Hvalid) as [Ht [Hd _]].
  pose proof (discounted_finite_plus _ (familyCoverage params)
                (dronesCoverage params) _ Ht Hd) as Hb.
  rewrite raw_monthlyPremium_stages. cbv zeta.
  set (b := discounted (tariffLine params) (familyCoverage params)
                       (dronesCoverage params) (deductibleAmount params)) in *.
  assert (Hclaims :
    plus (if gt (numberOfClaims params) (ofZ 0)
          then mul b (add (ofZ 1) (mul (numberOfClaims params) (lit 15 100)))
          else b) = true).
  { destruct (gt (numberOfClaims params) (ofZ 0)) eqn:Hn.
    - apply gt_zero_plus in Hn. destruct Hn as [Hn _].
      apply mul_plus_l; [exact Hb |].
      apply add_plus; [reflexivity |].
      apply mul_plus_r; [exact Hn | vm_compute; reflexivity].
    - apply finite_plus_plus. exact Hb. }
  destruct (cancelledByInsurer params); [| exact Hclaims].
  apply mul_plus_r; [exact Hclaims | vm_compute; reflexivity].
Qed.

(** C9: for every request that passes validation [calculateQuote] returns a
    quote whose [monthlyPremium] and [annualPremium] are both [>= 0]. *)
Theorem C9_premiums_nonnegative
  (params : LiabilityConfiguration) (w : World)
  (Hvalid : valid (validateInput params) = true) :
  exists q w',
    calculateQuote params w = (Returned q, w')
    /\ nonnegative (monthlyPremium q) = true
    /\ nonnegative (annualPremium q) = true.
Proof.
  destruct (calculateQuote_valid params w Hvalid) as [q [Hq [Hm [Ha _]]]].
  exists q. eexists. split; [exact Hq |].
  rewrite Hm, Ha.
  pose proof (raw_monthlyPremium_plus params Hvalid) as Hraw.
  unfold nonnegative, zero.
  split; apply plus_nonnegative, round2_plus; [exact Hraw |].
  apply mul_plus_r; [exact Hraw | reflexivity].
Qed.

(** C1: the request of the documented worked example (comfort, family
    coverage, deductible 150, one claim, nothing else, any valid zipCode and
    effectiveDate).  The monthly premium is 15.51.  The annual premium is
    [Math.round] of twelve times the unrounded monthly amount, 186.11; it is
    not the 186.12 that twelve times the rounded monthly premium gives. *)
Theorem C1_worked_example_annual_premium
  (params : LiabilityConfiguration) (w : World)
  (Htariff : tariffLine params = "comfort")
  (Hfamily : familyCoverage params = true)
  (Hdrones : dronesCoverage params = false)
  (Hdeductible : deductibleAmount params = 150)
  (Hclaims : numberOfClaims params = ofZ 1)
  (Hcancelled : cancelledByInsurer params = false)
  (Hvalid : valid (validateInput params) = true) :
  exists q w',
    calculateQuote params w = (Returned q, w')
    /\ monthlyPremium q = lit 1551 100
    /\ annualPremium q = lit 18611 100
    /\ annualPremium q <> lit 18612 100
    /\ round2 (mul (monthlyPremium q) (ofZ 12)) = lit 18612 100.
Proof.
  destruct (calculateQuote_valid params w Hvalid) as [q [Hq [Hm [Ha _]]]].
  exists q. eexists. split; [exact Hq |].
  rewrite Hm, Ha. unfold raw_monthlyPremium.
  rewrite Htariff, Hfamily, Hdrones, Hdeductible, Hclaims, Hcancelled.
  vm_compute. repeat split; discriminate.
Qed.

(** *** The coverage check *)

Lemma coverage_message_reported_iff (params : LiabilityConfiguration) :
  In msg_coverageAmount (reported (validateInput params)) <->
  exists v, coverageAmount params = Some v
            /\ truthy_number v = true
            /\ (lt v (ofZ 5000000) = true \/ gt v (ofZ 20000000) = true).
Proof.
  rewrite reported_validateInput.
  pose proof (check_message_reported params
                (bad_coverageAmount params, msg_coverageAmount)) as Hin.
  simpl in Hin. rewrite Hin by (unfold checks; simpl; tauto).
  unfold bad_coverageAmount, truthy_coverage.
  destruct (coverageAmount params) as [v |].
  - destruct (truthy_number v) eqn:Htruthy.
    + rewrite orb_true_iff. split.
      * intros Hr. exists v. auto.
      * intros [v' [Hv [_ Hr]]]. inversion Hv; subst. exact Hr.
    + split; [discriminate |].
      intros [v' [Hv [Ht _]]]. inversion Hv; subst. congruence.
  - split; [discriminate | intros [v [Hv _]]; discriminate].
Qed.

(** C2, at the value 0: a request whose [coverageAmount] is 0 has the field
    present and below 5,000,000, and [validateInput] does not report the
    coverage message: the truthiness test treats 0 like an absent field, in
    validation and in the resolution of the coverage sum alike. *)
Theorem C2_zero_coverage_is_not_reported
  (params : LiabilityConfiguration)
  (Hzero : coverageAmount params = Some (ofZ 0)) :
  ~ In msg_coverageAmount (reported (validateInput params))
  /\ validateInput params = validateInput (with_coverageAmount None params)
  /\ resolve_coverage params = resolve_coverage (with_coverageAmount None params).
Proof.
  split; [| split].
  - rewrite coverage_message_reported_iff.
    intros [v [Hv [Ht _]]]. rewrite Hzero in Hv. inversion Hv; subst.
    discriminate.
  - unfold validateInput, collect_errors, bad_coverageAmount, truthy_coverage.
    rewrite Hzero. reflexivity.
  - unfold resolve_coverage, truthy_coverage. rewrite Hzero. reflexivity.
Qed.

(** The rest of C2 as the code has it: the coverage message is absent when
    the field is absent or within the range, and present for every truthy
    value outside the range. *)
Lemma coverage_message_absent_or_in_range (params : LiabilityConfiguration) :
  (coverageAmount params = None \/
   exists v, coverageAmount params = Some v
             /\ ge v (ofZ 5000000) = true /\ le v (ofZ 20000000) = true) ->
  ~ In msg_coverageAmount (reported (validateInput params)).
Proof.
  rewrite coverage_message_reported_iff.
  intros [Hnone | [v [Hv [Hlo Hhi]]]] [v' [Hv' [_ Hout]]];
    [congruence |].
  assert (v' = v) by congruence. subst v'.
  apply ge_lt in Hlo. apply le_gt in Hhi.
  destruct Hout; congruence.
Qed.

Lemma invalid_of_reported (params : LiabilityConfiguration) (m : string) :
  In m (reported (validateInput params)) ->
  valid (validateInput params) = false.
Proof.
  intros HIn.
  destruct (valid (validateInput params)) eqn:Hvalid; [| reflexivity].
  apply valid_validateInput in Hvalid.
  rewrite reported_validateInput, Hvalid in HIn. contradiction.
Qed.

Lemma coverage_message_nonzero_out_of_range
  (params : LiabilityConfiguration) (v : number) :
  coverageAmount params = Some v -> truthy_number v = true ->
  lt v (ofZ 5000000) = true \/ gt v (ofZ 20000000) = true ->
  valid (validateInput params) = false
  /\ In msg_coverageAmount (reported (validateInput params)).
Proof.
  intros Hv Hnz Hout.
  assert (HIn : In msg_coverageAmount (reported (validateInput params)))
    by (apply coverage_message_reported_iff; exists v; auto).
  split; [| exact HIn].
  apply invalid_of_reported with (m := msg_coverageAmount). exact HIn.
Qed.

(** C4, at a request that breaks two rules at once: a four-digit zipCode
    and a [coverageAmount] of 0, everything else in order.  Both the
    postal-code rule and the coverage rule of the specification are
    violated, and [validateInput] reports the postal-code message alone:
    the violated coverage rule contributes no message (the same truthiness
    test as in C2). *)
Theorem C4_violated_coverage_rule_is_not_reported
  (params : LiabilityConfiguration) (t : Z)
  (Hzip : zipCode params = "1234")
  (Htariff : In (tariffLine params) tariffs)
  (Hded : In (deductibleAmount params) deductibles)
  (Hclaims : numberOfClaims params = ofZ 0)
  (Hdate : Date_parse (effectiveDate params) = Some t)
  (Hcov : coverageAmount params = Some (ofZ 0)) :
  zipCode_rule_violated params
  /\ coverage_rule_violated params
  /\ validateInput params = {| valid := false; errors := Some [msg_zipCode] |}.
Proof.
  split; [| split].
  - unfold zipCode_rule_violated. rewrite Hzip. intros [Hl _]. discriminate.
  - exists (ofZ 0). split; [exact Hcov |].
    intros [Hge _]. vm_compute in Hge. discriminate.
  - assert (E1 : bad_zipCode params = true)
      by (unfold bad_zipCode; rewrite Hzip; reflexivity).
    assert (E2 : bad_tariffLine params = false).
    { unfold bad_tariffLine, includes_str. apply negb_false_iff.
      apply existsb_exists. exists (tariffLine params).
      split; [exact Htariff | apply String.eqb_refl]. }
    assert (E3 : bad_deductibleAmount params = false).
    { unfold bad_deductibleAmount, includes_Z. apply negb_false_iff.
      apply existsb_exists. exists (deductibleAmount params).
      split; [exact Hded | apply Z.eqb_refl]. }
    assert (E4 : claims_negative params = false)
      by (unfold claims_negative; rewrite Hclaims; reflexivity).
    assert (E5 : claims_exceed params = false)
      by (unfold claims_exceed; rewrite Hclaims; reflexivity).
    assert (E6 : bad_effectiveDate params = false)
      by (unfold bad_effectiveDate; rewrite Hdate; reflexivity).
    assert (E7 : bad_coverageAmount params = false)
      by (unfold bad_coverageAmount, truthy_coverage; rewrite Hcov;
          reflexivity).
    unfold validateInput, collect_errors.
    rewrite E1, E2, E3, E4, E5, E6, E7. reflexivity.
Qed.

(** *** Boundaries *)

Lemma tests_with_numberOfClaims (n : number) (params : LiabilityConfiguration) :
  bad_zipCode (with_numberOfClaims n params) = bad_zipCode params
  /\ bad_tariffLine (with_numberOfClaims n params) = bad_tariffLine params
  /\ bad_deductibleAmount (with_numberOfClaims n params)
     = bad_deductibleAmount params
  /\ claims_negative (with_numberOfClaims n params) = lt n (ofZ 0)
  /\ claims_exceed (with_numberOfClaims n params) = gt n (ofZ 10)
  /\ bad_effectiveDate (with_numberOfClaims n params) = bad_effectiveDate params
  /\ bad_coverageAmount (with_numberOfClaims n params)
     = bad_coverageAmount params.
Proof. repeat split. Qed.

Lemma tests_with_coverageAmount (c : option number)
  (params : LiabilityConfiguration) :
  bad_zipCode (with_coverageAmount c params) = bad_zipCode params
  /\ bad_tariffLine (with_coverageAmount c params) = bad_tariffLine params
  /\ bad_deductibleAmount (with_coverageAmount c params)
     = bad_deductibleAmount params
  /\ claims_negative (with_coverageAmount c params) = claims_negative params
  /\ claims_exceed (with_coverageAmount c params) = claims_exceed params
  /\ bad_effectiveDate (with_coverageAmount c params) = bad_effectiveDate params
  /\ bad_coverageAmount (with_coverageAmount c params)
     = match c with
       | Some v =>
           if truthy_number v
           then lt v (ofZ 5000000) || gt v (ofZ 20000000)
           else false
       | None => false
       end.
Proof. repeat split. Qed.

Lemma claims_at_the_boundary :
  lt (ofZ 10) (ofZ 0) = false /\ gt (ofZ 10) (ofZ 10) = false
  /\ gt (ofZ 11) (ofZ 10) = true.
Proof. vm_compute. repeat split. Qed.

Lemma coverage_at_the_boundaries :
  (truthy_number (ofZ 5000000) = true
   /\ lt (ofZ 5000000) (ofZ 5000000) = false
   /\ gt (ofZ 5000000) (ofZ 20000000) = false)
  /\ (truthy_number (ofZ 20000000) = true
      /\ lt (ofZ 20000000) (ofZ 5000000) = false
      /\ gt (ofZ 20000000) (ofZ 20000000) = false)
  /\ (truthy_number (ofZ 4999999) = true
      /\ lt (ofZ 4999999) (ofZ 5000000) = true)
  /\ (truthy_number (ofZ 20000001) = true
      /\ gt (ofZ 20000001) (ofZ 20000000) = true).
Proof. vm_compute. repeat split. Qed.

(** C7: with every other field valid, 10 claims are accepted and 11 are
    rejected (with the message of the maximum); a coverage amount of
    5,000,000 or of 20,000,000 is accepted, and 4,999,999 and 20,000,001
    are rejected (with the coverage message). *)
Theorem C7_boundaries
  (params : LiabilityConfiguration)
  (Hvalid : valid (validateInput params) = true) :
  valid (validateInput (with_numberOfClaims (ofZ 10) params)) = true
  /\ valid (validateInput (with_numberOfClaims (ofZ 11) params)) = false
  /\ In msg_claims_exceed
        (reported (validateInput (with_numberOfClaims (ofZ 11) params)))
  /\ valid (validateInput (with_coverageAmount (Some (ofZ 5000000)) params))
     = true
  /\ valid (validateInput (with_coverageAmount (Some (ofZ 20000000)) params))
     = true
  /\ valid (validateInput (with_coverageAmount (Some (ofZ 4999999)) params))
     = false
  /\ In msg_coverageAmount
        (reported
           (validateInput (with_coverageAmount (Some (ofZ 4999999)) params)))
  /\ valid (validateInput (with_coverageAmount (Some (ofZ 20000001)) params))
     = false
  /\ In msg_coverageAmount
        (reported
           (validateInput (with_coverageAmount (Some (ofZ 20000001)) params))).
Proof.
  pose proof Hvalid as Hall. apply valid_seven_tests in Hall.
  destruct Hall as [Hz [Ht [Hd [Hn [He [Hdate Hcov]]]]]].
  destruct claims_at_the_boundary as [H10n [H10e H11e]].
  destruct coverage_at_the_boundaries
    as [[Hat1 [Hal1 Hag1]] [[Hat2 [Hal2 Hag2]] [[Hat3 Hal3] [Hat4 Hag4]]]].
  assert (H11 : In msg_claims_exceed
                  (reported (validateInput (with_numberOfClaims (ofZ 11) params)))).
  { rewrite reported_validateInput.
    apply (check_message_reported (with_numberOfClaims (ofZ 11) params)
             (claims_exceed (with_numberOfClaims (ofZ 11) params),
              msg_claims_exceed));
      [unfold checks; simpl In; tauto | exact H11e]. }
  assert (Hlow : In msg_coverageAmount
      (reported
         (validateInput (with_coverageAmount (Some (ofZ 4999999)) params)))).
  { apply coverage_message_reported_iff. exists (ofZ 4999999).
    split; [reflexivity | split; [exact Hat3 | left; exact Hal3]]. }
  assert (Hhigh : In msg_coverageAmount
      (reported
         (validateInput (with_coverageAmount (Some (ofZ 20000001)) params)))).
  { apply coverage_message_reported_iff. exists (ofZ 20000001).
    split; [reflexivity | split; [exact Hat4 | right; exact Hag4]]. }
  repeat split;
    try (exact H11); try (exact Hlow); try (exact Hhigh);
    try (eapply invalid_of_reported; eassumption).
  - apply valid_seven_tests.
    destruct (tests_with_numberOfClaims (ofZ 10) params)
      as [E1 [E2 [E3 [E4 [E5 [E6 E7]]]]]].
    rewrite E1, E2, E3, E4, E5, E6, E7. repeat split; assumption.
  - apply valid_seven_tests.
    destruct (tests_with_coverageAmount (Some (ofZ 5000000)) params)
      as [E1 [E2 [E3 [E4 [E5 [E6 E7]]]]]].
    rewrite E1, E2, E3, E4, E5, E6, E7, Hat1, Hal1, Hag1.
    repeat split; assumption.
  - apply valid_seven_tests.
    destruct (tests_with_coverageAmount (Some (ofZ 20000000)) params)
      as [E1 [E2 [E3 [E4 [E5 [E6 E7]]]]]].
    rewrite E1, E2, E3, E4, E5, E6, E7, Hat2, Hal2, Hag2.
    repeat split; assumption.
Qed.

(** *** The summary *)





End Properties.

(* ================================================================== *)
(** ** Further properties of the engine *)

Section Pricing.
Context `{Host}.

Lemma number_eqb_eq (x y : number) : number_eqb x y = true -> x = y.
Proof.
  destruct x as [s | s | | s m e], y as [s' | s' | | s' m' e']; simpl;
    try discriminate; try reflexivity.
  - intros E. apply Bool.eqb_prop in E. congruence.
  - intros E. apply Bool.eqb_prop in E. congruence.
  - intros E. apply andb_prop in E. destruct E as [E Ee].
    apply andb_prop in E. destruct E as [Es Em].
    apply Bool.eqb_prop in Es. apply Pos.eqb_eq in Em. apply Z.eqb_eq in Ee.
    congruence.
Qed.

Lemma raw_monthlyPremium_priced_of (params : LiabilityConfiguration) :
  raw_monthlyPremium params = raw_monthlyPremium (priced_of params).
Proof. reflexivity. Qed.

Lemma In_flags (b : bool) : In b flags.
Proof. destruct b; simpl; auto. Qed.

Lemma In_claim_counts (k : Z) : 0 <= k <= 10 -> In k claim_counts.
Proof. intros Hk. unfold claim_counts. simpl. lia. Qed.

(** A test that passes on every admitted combination holds of every request
    that passes validation, at each whole number of claims from 0 to 10. *)
Lemma for_all_priced_valid
  (P : string -> bool -> bool -> Z -> Z -> bool -> bool)
  (params : LiabilityConfiguration) (k : Z) :
  for_all_priced P = true ->
  valid (validateInput params) = true ->
  0 <= k <= 10 ->
  P (tariffLine params) (familyCoverage params) (dronesCoverage params)
    (deductibleAmount params) k (cancelledByInsurer params) = true.
Proof.
  intros Hall Hvalid Hk.
  destruct (valid_priced_fields params Hvalid) as [Ht [Hd _]].
  unfold for_all_priced in Hall.
  rewrite forallb_forall in Hall. specialize (Hall _ Ht).
  rewrite forallb_forall in Hall.
  specialize (Hall _ (In_flags (familyCoverage params))).
  rewrite forallb_forall in Hall.
  specialize (Hall _ (In_flags (dronesCoverage params))).
  rewrite forallb_forall in Hall. specialize (Hall _ Hd).
  rewrite forallb_forall in Hall.
  specialize (Hall _ (In_claim_counts _ Hk)).
  rewrite forallb_forall in Hall.
  specialize (Hall _ (In_flags (cancelledByInsurer params))).
  exact Hall.
Qed.

Lemma priced_of_whole (params : LiabilityConfiguration) (k : Z) :
  numberOfClaims params = ofZ k ->
  priced_of params =
  priced (tariffLine params) (familyCoverage params) (dronesCoverage params)
         (deductibleAmount params) (ofZ k) (cancelledByInsurer params).
Proof. intros Hk. unfold priced_of. rewrite Hk. reflexivity. Qed.

Lemma whole_cents_checked : for_all_priced whole_cents_test = true.
Proof. vm_compute. reflexivity. Qed.

Lemma cents_range_checked : for_all_priced cents_range_test = true.
Proof. vm_compute. reflexivity. Qed.

Lemma claims_checked : for_all_priced claims_test = true.
Proof. vm_compute. reflexivity. Qed.

Lemma options_checked : for_all_priced options_test = true.
Proof. vm_compute. reflexivity. Qed.

Lemma deductible_checked : for_all_priced deductible_test = true.
Proof. vm_compute. reflexivity. Qed.

Lemma tariff_checked : for_all_priced tariff_test = true.
Proof. vm_compute. reflexivity. Qed.

(** The quote of a valid request with a whole number of claims, its premiums
    in cents. *)
Lemma calculateQuote_cents (params : LiabilityConfiguration) (w : World)
  (k : Z) :
  valid (validateInput params) = true ->
  numberOfClaims params = ofZ k -> 0 <= k <= 10 ->
  exists q,
    calculateQuote params w =
    (Returned q, mkWorld (2 + clock_reads w) (1 + random_draws w))
    /\ monthlyPremium q = lit (monthly_cents params) 100
    /\ annualPremium q = lit (annual_cents params) 100.
Proof.
  intros Hvalid Hwhole Hk.
  destruct (calculateQuote_valid params w Hvalid) as [q [Hq [Hm [Ha _]]]].
  pose proof (for_all_priced_valid _ params k whole_cents_checked Hvalid Hk)
    as Ht.
  unfold whole_cents_test in Ht. cbv zeta in Ht.
  rewrite <- (priced_of_whole params k Hwhole) in Ht.
  apply andb_prop in Ht. destruct Ht as [Hm' Ha'].
  apply number_eqb_eq in Hm'. apply number_eqb_eq in Ha'.
  exists q. split; [exact Hq |].
  split; [rewrite Hm; exact Hm' | rewrite Ha; exact Ha'].
Qed.

Lemma cents_in_range (params : LiabilityConfiguration) (k : Z) :
  valid (validateInput params) = true ->
  numberOfClaims params = ofZ k -> 0 <= k <= 10 ->
  479 <= monthly_cents params <= 8120
  /\ 5750 <= annual_cents params <= 97442
  /\ -6 <= annual_cents params - 12 * monthly_cents params <= 6.
Proof.
  intros Hvalid Hwhole Hk.
  pose proof (for_all_priced_valid _ params k cents_range_checked Hvalid Hk)
    as Ht.
  unfold cents_range_test in Ht. cbv zeta in Ht.
  rewrite <- (priced_of_whole params k Hwhole) in Ht.
  change (monthly_cents (priced_of params)) with (monthly_cents params) in Ht.
  change (annual_cents (priced_of params)) with (annual_cents params) in Ht.
  repeat (apply andb_prop in Ht; destruct Ht as [Ht ?]).
  lia.
Qed.

Lemma calculateQuote_price (params : LiabilityConfiguration) (w : World) :
  valid (validateInput params) = true ->
  exists q,
    calculateQuote params w =
    (Returned q, mkWorld (2 + clock_reads w) (1 + random_draws w))
    /\ monthlyPremium q = price (priced_of params).
Proof.
  intros Hvalid.
  destruct (calculateQuote_valid params w Hvalid) as [q [Hq [Hm _]]].
  exists q. split; [exact Hq | exact Hm].
Qed.

(** X6: Every valid request with a whole number of claims (0 to 10) is
    quoted in whole cents: the monthly premium is between 4.79 and 81.20 and
    the annual premium between 57.50 and 974.42. *)
Theorem premiums_whole_cents_in_range
  (params : LiabilityConfiguration) (w : World) (k : Z)
  (Hvalid : valid (validateInput params) = true)
  (Hwhole : numberOfClaims params = ofZ k)
  (Hk : 0 <= k <= 10) :
  exists q w' m a,
    calculateQuote params w = (Returned q, w')
    /\ monthlyPremium q = lit m 100
    /\ annualPremium q = lit a 100
    /\ 479 <= m <= 8120
    /\ 5750 <= a <= 97442.
Proof.
  destruct (calculateQuote_cents params w k Hvalid Hwhole Hk)
    as [q [Hq [Hm Ha]]].
  destruct (cents_in_range params k Hvalid Hwhole Hk) as [Hrm [Hra _]].
  exists q. eexists. exists (monthly_cents params), (annual_cents params).
  split; [exact Hq |]. split; [exact Hm |]. split; [exact Ha |].
  split; [exact Hrm | exact Hra].
Qed.

(** X7: The annual premium of a valid request with a whole number of claims
    (0 to 10) is within 6 cents of twelve times its monthly premium (both
    are rounded separately from the unrounded monthly amount, so they need
    not agree). *)
Theorem annual_within_six_cents_of_twelve_monthly
  (params : LiabilityConfiguration) (w : World) (k : Z)
  (Hvalid : valid (validateInput params) = true)
  (Hwhole : numberOfClaims params = ofZ k)
  (Hk : 0 <= k <= 10) :
  exists q w' m a,
    calculateQuote params w = (Returned q, w')
    /\ monthlyPremium q = lit m 100
    /\ annualPremium q = lit a 100
    /\ -6 <= a - 12 * m <= 6.
Proof.
  destruct (calculateQuote_cents params w k Hvalid Hwhole Hk)
    as [q [Hq [Hm Ha]]].
  destruct (cents_in_range params k Hvalid Hwhole Hk) as [_ [_ Hd]].
  exists q. eexists. exists (monthly_cents params), (annual_cents params).
  split; [exact Hq |]. split; [exact Hm |]. split; [exact Ha | exact Hd].
Qed.

(** X8: Two valid requests with whole numbers of claims (0 to 10) that
    differ in nothing priced but that number: the one with more claims has
    the strictly higher monthly premium. *)
Theorem more_claims_cost_more
  (p1 p2 : LiabilityConfiguration) (w1 w2 : World) (k1 k2 : Z)
  (Hvalid1 : valid (validateInput p1) = true)
  (Hvalid2 : valid (validateInput p2) = true)
  (Htariff : tariffLine p1 = tariffLine p2)
  (Hfamily : familyCoverage p1 = familyCoverage p2)
  (Hdrones : dronesCoverage p1 = dronesCoverage p2)
  (Hdeductible : deductibleAmount p1 = deductibleAmount p2)
  (Hcancelled : cancelledByInsurer p1 = cancelledByInsurer p2)
  (Hwhole1 : numberOfClaims p1 = ofZ k1)
  (Hwhole2 : numberOfClaims p2 = ofZ k2)
  (Hclaims : 0 <= k1 < k2 /\ k2 <= 10) :
  exists q1 q2 w1' w2',
    calculateQuote p1 w1 = (Returned q1, w1')
    /\ calculateQuote p2 w2 = (Returned q2, w2')
    /\ lt (monthlyPremium q1) (monthlyPremium q2) = true.
Proof.
  destruct (calculateQuote_price p1 w1 Hvalid1) as [q1 [Hq1 Hm1]].
  destruct (calculateQuote_price p2 w2 Hvalid2) as [q2 [Hq2 Hm2]].
  exists q1, q2. eexists. eexists.
  split; [exact Hq1 |]. split; [exact Hq2 |].
  rewrite Hm1, Hm2.
  rewrite (priced_of_whole p1 k1 Hwhole1), (priced_of_whole p2 k2 Hwhole2).
  pose proof (for_all_priced_valid _ p1 k1 claims_checked Hvalid1
                ltac:(lia)) as Ht.
  unfold claims_test in Ht. cbv zeta in Ht. rewrite forallb_forall in Ht.
  specialize (Ht k2 (In_claim_counts k2 ltac:(lia))).
  assert (Hlt : (k1 <? k2) = true) by (apply Z.ltb_lt; lia).
  rewrite Hlt in Ht.
  rewrite <- Htariff, <- Hfamily, <- Hdrones, <- Hdeductible, <- Hcancelled.
  exact Ht.
Qed.

(** X9: Two valid requests with the same whole number of claims (0 to 10)
    that differ in nothing priced but the options (family coverage, drones
    coverage, cancelled by insurer), the second having every option of the
    first: the monthly premium is the same when the options are the same,
    and strictly higher for the second when it has an option more. *)
Theorem options_never_lower_the_premium
  (p1 p2 : LiabilityConfiguration) (w1 w2 : World) (k : Z)
  (Hvalid1 : valid (validateInput p1) = true)
  (Hvalid2 : valid (validateInput p2) = true)
  (Htariff : tariffLine p1 = tariffLine p2)
  (Hdeductible : deductibleAmount p1 = deductibleAmount p2)
  (Hwhole1 : numberOfClaims p1 = ofZ k)
  (Hwhole2 : numberOfClaims p2 = ofZ k)
  (Hk : 0 <= k <= 10)
  (Hfamily : familyCoverage p1 = true -> familyCoverage p2 = true)
  (Hdrones : dronesCoverage p1 = true -> dronesCoverage p2 = true)
  (Hcancelled : cancelledByInsurer p1 = true -> cancelledByInsurer p2 = true) :
  exists q1 q2 w1' w2',
    calculateQuote p1 w1 = (Returned q1, w1')
    /\ calculateQuote p2 w2 = (Returned q2, w2')
    /\ ((familyCoverage p1 = familyCoverage p2
         /\ dronesCoverage p1 = dronesCoverage p2
         /\ cancelledByInsurer p1 = cancelledByInsurer p2)
        -> monthlyPremium q1 = monthlyPremium q2)
    /\ (~ (familyCoverage p1 = familyCoverage p2
           /\ dronesCoverage p1 = dronesCoverage p2
           /\ cancelledByInsurer p1 = cancelledByInsurer p2)
        -> lt (monthlyPremium q1) (monthlyPremium q2) = true).
Proof.
  destruct (calculateQuote_price p1 w1 Hvalid1) as [q1 [Hq1 Hm1]].
  destruct (calculateQuote_price p2 w2 Hvalid2) as [q2 [Hq2 Hm2]].
  exists q1, q2. eexists. eexists.
  split; [exact Hq1 |]. split; [exact Hq2 |].
  rewrite Hm1, Hm2.
  rewrite (priced_of_whole p1 k Hwhole1), (priced_of_whole p2 k Hwhole2).
  pose proof (for_all_priced_valid _ p1 k options_checked Hvalid1 Hk) as Ht.
  unfold options_test in Ht. cbv zeta in Ht.
  rewrite forallb_forall in Ht.
  specialize (Ht _ (In_flags (familyCoverage p2))).
  rewrite forallb_forall in Ht.
  specialize (Ht _ (In_flags (dronesCoverage p2))).
  rewrite forallb_forall in Ht.
  specialize (Ht _ (In_flags (cancelledByInsurer p2))).
  rewrite <- Htariff, <- Hdeductible.
  destruct (familyCoverage p1), (familyCoverage p2),
    (dronesCoverage p1), (dronesCoverage p2),
    (cancelledByInsurer p1), (cancelledByInsurer p2);
    cbn [flag_le implb andb Bool.eqb] in Ht;
    try (specialize (Hfamily eq_refl); discriminate);
    try (specialize (Hdrones eq_refl); discriminate);
    try (specialize (Hcancelled eq_refl); discriminate);
    (split; [intros Heq | intros Hne]);
    first [ reflexivity
          | exact Ht
          | destruct Heq as [? [? ?]]; discriminate
          | exfalso; apply Hne; repeat split; reflexivity ].
Qed.

(** X10: Two valid requests with the same whole number of claims (0 to 10)
    that differ in nothing priced but the deductible: the one with the
    higher deductible has the strictly lower monthly premium. *)
Theorem higher_deductible_costs_less
  (p1 p2 : LiabilityConfiguration) (w1 w2 : World) (k : Z)
  (Hvalid1 : valid (validateInput p1) = true)
  (Hvalid2 : valid (validateInput p2) = true)
  (Htariff : tariffLine p1 = tariffLine p2)
  (Hfamily : familyCoverage p1 = familyCoverage p2)
  (Hdrones : dronesCoverage p1 = dronesCoverage p2)
  (Hwhole1 : numberOfClaims p1 = ofZ k)
  (Hwhole2 : numberOfClaims p2 = ofZ k)
  (Hk : 0 <= k <= 10)
  (Hcancelled : cancelledByInsurer p1 = cancelledByInsurer p2)
  (Hdeductible : deductibleAmount p1 < deductibleAmount p2) :
  exists q1 q2 w1' w2',
    calculateQuote p1 w1 = (Returned q1, w1')
    /\ calculateQuote p2 w2 = (Returned q2, w2')
    /\ lt (monthlyPremium q2) (monthlyPremium q1) = true.
Proof.
  destruct (calculateQuote_price p1 w1 Hvalid1) as [q1 [Hq1 Hm1]].
  destruct (calculateQuote_price p2 w2 Hvalid2) as [q2 [Hq2 Hm2]].
  exists q1, q2. eexists. eexists.
  split; [exact Hq1 |]. split; [exact Hq2 |].
  rewrite Hm1, Hm2.
  rewrite (priced_of_whole p1 k Hwhole1), (priced_of_whole p2 k Hwhole2).
  pose proof (for_all_priced_valid _ p1 k deductible_checked Hvalid1 Hk) as Ht.
  unfold deductible_test in Ht. cbv zeta in Ht. rewrite forallb_forall in Ht.
  destruct (valid_priced_fields p2 Hvalid2) as [_ [Hd2 _]].
  specialize (Ht _ Hd2).
  apply Z.ltb_lt in Hdeductible. rewrite Hdeductible in Ht.
  rewrite <- Htariff, <- Hfamily, <- Hdrones, <- Hcancelled.
  exact Ht.
Qed.

(** X11: Two valid requests with the same whole number of claims (0 to 10)
    that differ in nothing priced but the tariff line: basic is strictly
    cheaper than comfort, and comfort than premium. *)
Theorem higher_tariff_costs_more
  (p1 p2 : LiabilityConfiguration) (w1 w2 : World) (k : Z)
  (Hvalid1 : valid (validateInput p1) = true)
  (Hvalid2 : valid (validateInput p2) = true)
  (Hfamily : familyCoverage p1 = familyCoverage p2)
  (Hdrones : dronesCoverage p1 = dronesCoverage p2)
  (Hdeductible : deductibleAmount p1 = deductibleAmount p2)
  (Hwhole1 : numberOfClaims p1 = ofZ k)
  (Hwhole2 : numberOfClaims p2 = ofZ k)
  (Hk : 0 <= k <= 10)
  (Hcancelled : cancelledByInsurer p1 = cancelledByInsurer p2)
  (Htariff : tariff_rank (tariffLine p1) < tariff_rank (tariffLine p2)) :
  exists q1 q2 w1' w2',
    calculateQuote p1 w1 = (Returned q1, w1')
    /\ calculateQuote p2 w2 = (Returned q2, w2')
    /\ lt (monthlyPremium q1) (monthlyPremium q2) = true.
Proof.
  destruct (calculateQuote_price p1 w1 Hvalid1) as [q1 [Hq1 Hm1]].
  destruct (calculateQuote_price p2 w2 Hvalid2) as [q2 [Hq2 Hm2]].
  exists q1, q2. eexists. eexists.
  split; [exact Hq1 |]. split; [exact Hq2 |].
  rewrite Hm1, Hm2.
  rewrite (priced_of_whole p1 k Hwhole1), (priced_of_whole p2 k Hwhole2).
  pose proof (for_all_priced_valid _ p1 k tariff_checked Hvalid1 Hk) as Ht.
  unfold tariff_test in Ht. cbv zeta in Ht. rewrite forallb_forall in Ht.
  destruct (valid_priced_fields p2 Hvalid2) as [Ht2 _].
  specialize (Ht _ Ht2).
  apply Z.ltb_lt in Htariff. rewrite Htariff in Ht.
  rewrite <- Hfamily, <- Hdrones, <- Hdeductible, <- Hcancelled.
  exact Ht.
Qed.

(** X5: The premiums of a valid request depend on the six priced fields only:
    zipCode, previousInsurance, effectiveDate and coverageAmount, and the
    moment of the call, change neither premium nor the extensions. *)
Theorem premiums_depend_on_priced_fields_only
  (p1 p2 : LiabilityConfiguration) (w1 w2 : World)
  (Hvalid1 : valid (validateInput p1) = true)
  (Hvalid2 : valid (validateInput p2) = true)
  (Hsame : priced_of p1 = priced_of p2) :
  exists q1 q2 w1' w2',
    calculateQuote p1 w1 = (Returned q1, w1')
    /\ calculateQuote p2 w2 = (Returned q2, w2')
    /\ monthlyPremium q1 = monthlyPremium q2
    /\ annualPremium q1 = annualPremium q2
    /\ extensions q1 = extensions q2.
Proof.
  destruct (calculateQuote_valid p1 w1 Hvalid1) as [q1 [Hq1 [Hm1 [Ha1 [_ He1]]]]].
  destruct (calculateQuote_valid p2 w2 Hvalid2) as [q2 [Hq2 [Hm2 [Ha2 [_ He2]]]]].
  exists q1, q2. eexists. eexists.
  split; [exact Hq1 |]. split; [exact Hq2 |].
  rewrite Hm1, Hm2, Ha1, Ha2, He1, He2.
  rewrite (raw_monthlyPremium_priced_of p1), (raw_monthlyPremium_priced_of p2).
  rewrite Hsame.
  assert (Hf : familyCoverage p1 = familyCoverage p2)
    by (change (familyCoverage (priced_of p1) = familyCoverage (priced_of p2));
        rewrite Hsame; reflexivity).
  assert (Hd : dronesCoverage p1 = dronesCoverage p2)
    by (change (dronesCoverage (priced_of p1) = dronesCoverage (priced_of p2));
        rewrite Hsame; reflexivity).
  unfold build_extensions. rewrite Hf, Hd. repeat split.
Qed.

End Pricing.

Section Validation.
Context `{Host}.

Lemma test_digits_spec (k : nat) (s : string) :
  test_digits k s = true <->
  String.length s = k
  /\ forall c, In c (list_ascii_of_string s) -> is_digit c = true.
Proof.
  revert k. induction s as [| a s IH]; intros k; destruct k as [| k]; simpl.
  - split; [intros _; split; [reflexivity | intros c []] | reflexivity].
  - split; [discriminate | intros [Hl _]; discriminate].
  - split; [discriminate | intros [Hl _]; discriminate].
  - rewrite andb_true_iff, IH. split.
    + intros [Ha [Hl Hall]]. split; [congruence |].
      intros c [<- | Hc]; [exact Ha | apply Hall; exact Hc].
    + intros [Hl Hall]. split; [apply Hall; left; reflexivity |].
      split; [congruence | intros c Hc; apply Hall; right; exact Hc].
Qed.

Lemma bad_zipCode_test_digits (params : LiabilityConfiguration) :
  bad_zipCode params = negb (test_digits 5 (zipCode params)).
Proof.
  unfold bad_zipCode.
  destruct (test_digits 5 (zipCode params)) eqn:Ht; simpl.
  - apply test_digits_spec in Ht. destruct Ht as [Hl _].
    rewrite Hl. destruct (zipCode params); [discriminate | reflexivity].
  - rewrite orb_true_r. reflexivity.
Qed.

(** X1: The postal-code message is reported exactly when the zipCode is not a
    string of five decimal digits; the emptiness and the length tests of the
    condition add nothing to the regular expression. *)
Theorem zipCode_rejected_iff_not_five_digits (params : LiabilityConfiguration) :
  (In msg_zipCode (reported (validateInput params)) <->
   ~ (String.length (zipCode params) = 5%nat
      /\ forall c, In c (list_ascii_of_string (zipCode params)) ->
                   (48 <= nat_of_ascii c <= 57)%nat))
  /\ bad_zipCode params = negb (test_digits 5 (zipCode params)).
Proof.
  split; [| apply bad_zipCode_test_digits].
  rewrite reported_validateInput.
  pose proof (check_message_reported params (bad_zipCode params, msg_zipCode))
    as Hin.
  simpl in Hin. rewrite Hin by (unfold checks; simpl; tauto).
  rewrite bad_zipCode_test_digits, negb_true_iff.
  rewrite <- not_true_iff_false, test_digits_spec.
  unfold is_digit.
  split; intros Hn [Hl Hall]; apply Hn; (split; [exact Hl |]);
    intros c Hc; specialize (Hall c Hc).
  - apply andb_true_iff. split; apply Nat.leb_le; lia.
  - apply andb_true_iff in Hall. destruct Hall as [H1 H2].
    apply Nat.leb_le in H1. apply Nat.leb_le in H2. lia.
Qed.

Lemma truthy_not_NaN (v : number) : truthy_number v = true -> isNaN v = false.
Proof. destruct v; simpl; congruence. Qed.

Lemma claims_tests_pass_iff (n : number) :
  lt n (ofZ 0) = false /\ gt n (ofZ 10) = false <->
  isNaN n = true \/ (ge n (ofZ 0) = true /\ le n (ofZ 10) = true).
Proof.
  split.
  - intros [Hlo Hhi]. destruct (isNaN n) eqn:Hnan; [left; reflexivity |].
    right. split;
      [apply not_lt_ge | apply not_gt_le]; try assumption; reflexivity.
  - intros [Hnan | [Hlo Hhi]].
    + destruct n; try discriminate. split; reflexivity.
    + split; [apply ge_lt | apply le_gt]; assumption.
Qed.

Lemma coverage_test_passes_iff (c : option number) :
  match c with
  | Some v =>
      if truthy_coverage (Some v)
      then lt v (ofZ 5000000) || gt v (ofZ 20000000)
      else false
  | None => false
  end = false <->
  c = None
  \/ exists v, c = Some v
               /\ (truthy_number v = false
                   \/ (ge v (ofZ 5000000) = true
                       /\ le v (ofZ 20000000) = true)).
Proof.
  unfold truthy_coverage.
  destruct c as [v |]; [| split; [left; reflexivity | reflexivity]].
  destruct (truthy_number v) eqn:Htruthy.
  - rewrite orb_false_iff. split.
    + intros [Hlo Hhi]. right. exists v. split; [reflexivity |]. right.
      pose proof (truthy_not_NaN v Htruthy) as Hnan.
      split; [apply not_lt_ge | apply not_gt_le]; try assumption; reflexivity.
    + intros [Hnone | [v' [Hv [Hf | [Hlo Hhi]]]]]; try discriminate;
        inversion Hv; subst v'; [congruence |].
      split; [apply ge_lt | apply le_gt]; assumption.
  - split; [| reflexivity].
    intros _. right. exists v. split; [reflexivity | left; exact Htruthy].
Qed.

(** X2: A request passes validation exactly when: the zipCode is five decimal
    digits, the tariff line is one of the three, the deductible one of the
    four, the number of claims is NaN or between 0 and 10, the effective
    date parses, and the coverage amount is absent, falsy (0, -0 or NaN), or
    between 5,000,000 and 20,000,000. *)
Theorem valid_iff (params : LiabilityConfiguration) :
  valid (validateInput params) = true <->
  test_digits 5 (zipCode params) = true
  /\ In (tariffLine params) ["basic"; "comfort"; "premium"]
  /\ In (deductibleAmount params) [0; 150; 300; 500]
  /\ (isNaN (numberOfClaims params) = true
      \/ (ge (numberOfClaims params) (ofZ 0) = true
          /\ le (numberOfClaims params) (ofZ 10) = true))
  /\ Date_parse (effectiveDate params) <> None
  /\ (coverageAmount params = None
      \/ exists v, coverageAmount params = Some v
                   /\ (truthy_number v = false
                       \/ (ge v (ofZ 5000000) = true
                           /\ le v (ofZ 20000000) = true))).
Proof.
  rewrite valid_seven_tests.
  rewrite bad_zipCode_test_digits, negb_false_iff.
  rewrite <- claims_tests_pass_iff.
  rewrite <- (coverage_test_passes_iff (coverageAmount params)).
  unfold bad_tariffLine, bad_deductibleAmount, claims_negative, claims_exceed,
    bad_effectiveDate, bad_coverageAmount.
  rewrite !negb_false_iff.
  unfold includes_str, includes_Z. rewrite !existsb_exists.
  split.
  - intros [Hz [[t [Ht Et]] [[d [Hd Ed]] [Hn0 [Hn10 [Hdate Hcov]]]]]].
    apply String.eqb_eq in Et. apply Z.eqb_eq in Ed. subst t d.
    repeat split; try assumption.
    destruct (Date_parse (effectiveDate params)); congruence.
  - intros [Hz [Ht [Hd [[Hn0 Hn10] [Hdate Hcov]]]]].
    repeat split; try assumption.
    + exists (tariffLine params). split; [exact Ht | apply String.eqb_refl].
    + exists (deductibleAmount params). split; [exact Hd | apply Z.eqb_refl].
    + destruct (Date_parse (effectiveDate params)); congruence.
Qed.

Lemma valid_coverage_cases (params : LiabilityConfiguration) :
  valid (validateInput params) = true ->
  coverageAmount params = None
  \/ exists v, coverageAmount params = Some v
               /\ (truthy_number v = false
                   \/ (ge v (ofZ 5000000) = true
                       /\ le v (ofZ 20000000) = true)).
Proof.
  intros Hvalid. apply valid_seven_tests in Hvalid.
  destruct Hvalid as [_ [_ [_ [_ [_ [_ Hcov]]]]]].
  apply coverage_test_passes_iff. exact Hcov.
Qed.

(** Dropping the passed checks keeps the messages of the failed ones
    distinct. *)
Lemma failed_messages_distinct (cs : list (bool * string)) :
  NoDup (map snd cs) -> NoDup (map snd (filter fst cs)).
Proof.
  induction cs as [| [failed m] cs IH]; simpl; intros Hd.
  - exact Hd.
  - apply NoDup_cons_iff in Hd. destruct Hd as [Hfresh Hd].
    destruct failed; simpl; [| exact (IH Hd)].
    apply NoDup_cons_iff. split; [| exact (IH Hd)].
    intros Hm. apply Hfresh.
    apply in_map_iff in Hm. destruct Hm as [c [Hc Hin]].
    apply in_map_iff. exists c. split; [exact Hc |].
    apply filter_In in Hin. tauto.
Qed.

Lemma NoDup_check_order : NoDup check_order.
Proof.
  unfold check_order.
  repeat (constructor; [simpl; intuition discriminate |]).
  constructor.
Qed.

(** X3: The reported list never repeats a message, never holds both messages
    about the number of claims, and so holds at most six of the seven
    messages. *)
Theorem reported_errors_distinct_at_most_six (params : LiabilityConfiguration) :
  NoDup (reported (validateInput params))
  /\ ~ (In msg_claims_negative (reported (validateInput params))
        /\ In msg_claims_exceed (reported (validateInput params)))
  /\ (List.length (reported (validateInput params)) <= 6)%nat.
Proof.
  rewrite reported_validateInput.
  assert (Hex : claims_negative params && claims_exceed params = false).
  { unfold claims_negative, claims_exceed.
    destruct (lt (numberOfClaims params) (ofZ 0)) eqn:Hneg; [| reflexivity].
    apply lt_zero_not_gt_ten in Hneg. rewrite Hneg. reflexivity. }
  split; [| split].
  - rewrite collect_errors_filter. apply failed_messages_distinct.
    change (NoDup check_order). apply NoDup_check_order.
  - intros [Hneg Hexc].
    apply (check_message_reported params
             (claims_negative params, msg_claims_negative)) in Hneg;
      [| unfold checks; simpl; tauto].
    apply (check_message_reported params
             (claims_exceed params, msg_claims_exceed)) in Hexc;
      [| unfold checks; simpl; tauto].
    simpl in Hneg, Hexc. rewrite Hneg, Hexc in Hex. discriminate.
  - rewrite collect_errors_filter. unfold checks.
    destruct (claims_negative params), (claims_exceed params);
      try discriminate;
      destruct (bad_zipCode params), (bad_tariffLine params),
        (bad_deductibleAmount params), (bad_effectiveDate params),
        (bad_coverageAmount params); simpl; lia.
Qed.

End Validation.

Section Quotes.
Context `{Host}.

(** The quote of a valid request, field by field. *)
Lemma calculateQuote_valid_record (params : LiabilityConfiguration) (w : World) :
  valid (validateInput params) = true ->
  calculateQuote params w =
  (Returned
     {| quoteId := "quote_" ++ Z_toString (Date_now (clock_reads w)) ++ "_"
                   ++ Math_random_suffix (random_draws w);
        monthlyPremium := round2 (raw_monthlyPremium params);
        annualPremium := round2 (mul (raw_monthlyPremium params) (ofZ 12));
        currency := "EUR";
        coverageSum := resolve_coverage params;
        deductible := deductibleAmount params;
        territory := "Worldwide";
        includedRisks :=
          ["personal_injury"; "property_damage"; "financial_loss"];
        extensions := build_extensions params;
        validUntil :=
          Date_toISOString (Date_now (S (clock_reads w)) + thirty_days_ms);
        q_tariffLine := tariffLine params;
        q_familyCoverage := familyCoverage params |},
   mkWorld (2 + clock_reads w) (1 + random_draws w)).
Proof.
  intros Hvalid. unfold calculateQuote. rewrite Hvalid. reflexivity.
Qed.

(** X4: The coverage sum of a valid request lies between 5,000,000 and
    20,000,000: it is the requested coverage amount when one is given and is
    truthy, and the default of the tariff line when none is given or the one
    given is falsy (0, -0 or NaN): 5,000,000 for basic, 10,000,000 for
    comfort, 20,000,000 for premium. *)
Theorem coverageSum_resolved_in_range
  (params : LiabilityConfiguration) (w : World)
  (Hvalid : valid (validateInput params) = true) :
  exists q w',
    calculateQuote params w = (Returned q, w')
    /\ (ge (coverageSum q) (ofZ 5000000) = true
        /\ le (coverageSum q) (ofZ 20000000) = true)
    /\ (forall v, coverageAmount params = Some v -> truthy_number v = true ->
                  coverageSum q = v)
    /\ (coverageAmount params = None
        \/ (exists v, coverageAmount params = Some v
                      /\ truthy_number v = false) ->
        (tariffLine params = "basic" /\ coverageSum q = ofZ 5000000)
        \/ (tariffLine params = "comfort" /\ coverageSum q = ofZ 10000000)
        \/ (tariffLine params = "premium" /\ coverageSum q = ofZ 20000000)).
Proof.
  destruct (calculateQuote_valid params w Hvalid) as [q [Hq [_ [_ [Hc _]]]]].
  exists q. eexists. split; [exact Hq |]. rewrite Hc.
  pose proof (valid_coverage_cases params Hvalid) as Hcov.
  destruct (valid_priced_fields params Hvalid) as [Ht _].
  assert (Hdefault :
    (tariffLine params = "basic"
     /\ ToNumber (get_str coverageAmounts (tariffLine params)) = ofZ 5000000)
    \/ (tariffLine params = "comfort"
        /\ ToNumber (get_str coverageAmounts (tariffLine params))
           = ofZ 10000000)
    \/ (tariffLine params = "premium"
        /\ ToNumber (get_str coverageAmounts (tariffLine params))
           = ofZ 20000000)).
  { simpl in Ht. destruct Ht as [E | [E | [E | []]]]; rewrite <- E;
      [left | right; left | right; right]; split; reflexivity. }
  assert (Hdefault_range :
    ge (ToNumber (get_str coverageAmounts (tariffLine params))) (ofZ 5000000)
    = true
    /\ le (ToNumber (get_str coverageAmounts (tariffLine params)))
          (ofZ 20000000) = true).
  { destruct Hdefault as [[_ E] | [[_ E] | [_ E]]]; rewrite E;
      vm_compute; split; reflexivity. }
  unfold resolve_coverage, truthy_coverage.
  destruct Hcov as [Hnone | [v [Hv [Hfalsy | Hrange]]]].
  - rewrite Hnone. split; [exact Hdefault_range |]. split.
    + intros v Hv. discriminate.
    + intros _.
      destruct Hdefault as [[T E] | [[T E] | [T E]]]; rewrite E; auto.
  - rewrite Hv, Hfalsy. split; [exact Hdefault_range |]. split.
    + intros v' Hv' Ht'. inversion Hv'; subst v'. congruence.
    + intros _.
      destruct Hdefault as [[T E] | [[T E] | [T E]]]; rewrite E; auto.
  - rewrite Hv. destruct (truthy_number v) eqn:Htruthy.
    + split; [exact Hrange |]. split.
      * intros v' Hv' _. congruence.
      * intros [Hn | [v' [Hv' Hf]]]; [discriminate |].
        inversion Hv'; subst v'. congruence.
    + split; [exact Hdefault_range |]. split.
      * intros v' Hv' Ht'. inversion Hv'; subst v'. congruence.
      * intros _.
        destruct Hdefault as [[T E] | [[T E] | [T E]]]; rewrite E; auto.
Qed.

(** X12: The quote of a valid request echoes the request's deductible, tariff
    line and family flag, each within its admitted values, carries the fixed
    currency, territory and risks, and its family flag agrees with its
    extensions: the flag is set exactly when ["family_coverage"] is listed.
    No extension is listed twice. *)
Theorem quote_fields_consistent
  (params : LiabilityConfiguration) (w : World)
  (Hvalid : valid (validateInput params) = true) :
  exists q w',
    calculateQuote params w = (Returned q, w')
    /\ currency q = "EUR"
    /\ territory q = "Worldwide"
    /\ includedRisks q = ["personal_injury"; "property_damage"; "financial_loss"]
    /\ deductible q = deductibleAmount params
    /\ In (deductible q) [0; 150; 300; 500]
    /\ q_tariffLine q = tariffLine params
    /\ In (q_tariffLine q) ["basic"; "comfort"; "premium"]
    /\ q_familyCoverage q = familyCoverage params
    /\ (q_familyCoverage q = true <-> In "family_coverage" (extensions q))
    /\ NoDup (extensions q).
Proof.
  pose proof (calculateQuote_valid_record params w Hvalid) as Hq.
  eexists. eexists. split; [exact Hq |]. simpl.
  destruct (valid_priced_fields params Hvalid) as [Ht [Hd _]].
  repeat (split; [first [reflexivity | assumption] |]).
  unfold build_extensions, push.
  destruct (dronesCoverage params), (familyCoverage params); simpl; split.
  - split; [intros _; auto | reflexivity].
  - apply NoDup_cons; [simpl; intuition discriminate |].
    apply NoDup_cons; [simpl; tauto | apply NoDup_nil].
  - split; [discriminate | intros [E | []]; discriminate].
  - apply NoDup_cons; [simpl; tauto | apply NoDup_nil].
  - split; [intros _; auto | reflexivity].
  - apply NoDup_cons; [simpl; tauto | apply NoDup_nil].
  - split; [discriminate | intros []].
  - apply NoDup_nil.
Qed.

(** *** The identifier *)

Lemma no_underscore_uint (d : Decimal.uint) :
  no_underscore (DecimalString.NilEmpty.string_of_uint d).
Proof.
  induction d; simpl; intros c Hc; simpl in Hc;
    try contradiction;
    (destruct Hc as [<- | Hc]; [discriminate | apply IHd; exact Hc]).
Qed.

Lemma no_underscore_Z_toString (z : Z) : no_underscore (Z_toString z).
Proof.
  unfold Z_toString, DecimalString.NilZero.string_of_int,
    DecimalString.NilZero.string_of_uint.
  destruct (Z.to_int z) as [d | d].
  - destruct d; try apply (no_underscore_uint (_ _)).
    intros c [<- | []]. discriminate.
  - intros c [<- | Hc]; [discriminate |].
    revert c Hc. change (no_underscore
      match d with
      | Decimal.Nil => "0"
      | _ => DecimalString.NilEmpty.string_of_uint d
      end).
    destruct d; try apply (no_underscore_uint (_ _)).
    intros c [<- | []]. discriminate.
Qed.

Lemma Z_toString_inj (a b : Z) : Z_toString a = Z_toString b -> a = b.
Proof.
  unfold Z_toString. intros E.
  assert (Hi : forall z, DecimalString.NilZero.int_of_string
                           (DecimalString.NilZero.string_of_int (Z.to_int z))
                         = Some (Z.to_int z)).
  { intros z. apply DecimalString.NilZero.isi.
    - destruct z; simpl; try discriminate.
      intros E'. inversion E' as [E'']. 
      exact (DecimalPos.Unsigned.to_uint_nonnil _ E'').
    - destruct z; simpl; try discriminate.
      intros E'. inversion E' as [E''].
      exact (DecimalPos.Unsigned.to_uint_nonnil _ E''). }
  pose proof (Hi a) as Ha. rewrite E, Hi in Ha.
  inversion Ha as [Hab].
  rewrite <- (DecimalZ.of_to a), <- (DecimalZ.of_to b). congruence.
Qed.

Lemma split_at_underscore (a b s1 s2 : string) :
  no_underscore a -> no_underscore b ->
  a ++ "_" ++ s1 = b ++ "_" ++ s2 -> a = b /\ s1 = s2.
Proof.
  revert b. induction a as [| x a IH]; intros b Ha Hb E; destruct b as [| y b];
    simpl in E.
  - inversion E. split; reflexivity.
  - inversion E as [[Hx Hs]]. exfalso. apply (Hb y); [left; reflexivity |].
    congruence.
  - inversion E as [[Hx Hs]]. exfalso. apply (Ha x); [left; reflexivity |].
    congruence.
  - inversion E as [[Hx Hs]]. subst y.
    destruct (IH b) as [Hab Hss].
    + intros c Hc. apply Ha. right. exact Hc.
    + intros c Hc. apply Hb. right. exact Hc.
    + exact Hs.
    + split; congruence.
Qed.

(** X13: Two quotes carry the same identifier exactly when the clock reading and
    the random suffix of the two calls are both the same: the identifier
    determines the two, so a difference in either gives different
    identifiers. *)
Theorem quoteId_collides_iff
  (p1 p2 : LiabilityConfiguration) (w1 w2 : World)
  (Hvalid1 : valid (validateInput p1) = true)
  (Hvalid2 : valid (validateInput p2) = true) :
  exists q1 q2 w1' w2',
    calculateQuote p1 w1 = (Returned q1, w1')
    /\ calculateQuote p2 w2 = (Returned q2, w2')
    /\ (quoteId q1 = quoteId q2 <->
        Date_now (clock_reads w1) = Date_now (clock_reads w2)
        /\ Math_random_suffix (random_draws w1)
           = Math_random_suffix (random_draws w2)).
Proof.
  pose proof (calculateQuote_valid_record p1 w1 Hvalid1) as Hq1.
  pose proof (calculateQuote_valid_record p2 w2 Hvalid2) as Hq2.
  eexists. eexists. eexists. eexists.
  split; [exact Hq1 |]. split; [exact Hq2 |]. simpl.
  split.
  - intros E. inversion E as [E'].
    apply split_at_underscore in E'; try apply no_underscore_Z_toString.
    destruct E' as [Et Es]. apply Z_toString_inj in Et. split; assumption.
  - intros [Et Es]. rewrite Et, Es. reflexivity.
Qed.

End Quotes.

Section Envelope.
Context `{Host}.

Lemma handler_valid (params : LiabilityConfiguration) (w : World) :
  valid (validateInput params) = true ->
  exists q,
    calculateQuote params w =
    (Returned q, mkWorld (2 + clock_reads w) (1 + random_draws w))
    /\ handler params w =
       (Returned {| success := true;
                    quote := Some q;
                    error := None;
                    summary := formatQuoteSummary q |},
        mkWorld (2 + clock_reads w) (1 + random_draws w)).
Proof.
  intros Hvalid.
  destruct (calculateQuote_valid params w Hvalid) as [q [Hq _]].
  exists q. split; [exact Hq |].
  unfold handler, handler_of, try_catch, bind.
  unfold new_LiabilityClient, client_calculateQuote.
  rewrite Hq. reflexivity.
Qed.

Lemma handler_total (params : LiabilityConfiguration) (w : World) :
  exists r w',
    handler params w = (Returned r, w')
    /\ success r = valid (validateInput params).
Proof.
  destruct (valid (validateInput params)) eqn:Hvalid.
  - destruct (handler_valid params w Hvalid) as [q [_ Hh]].
    eexists. eexists. split; [exact Hh | reflexivity].
  - eexists. eexists. split; [apply handler_invalid; exact Hvalid | reflexivity].
Qed.

(** X14: The handler never throws: it returns an envelope whose [success] is the
    verdict of [validateInput].  A successful envelope holds the quote of
    [calculateQuote], its summary and no error, after two clock readings and
    one random draw; a failed one holds no quote and the validation error,
    and the clock and the random source have not been touched. *)
Theorem handler_returns_discriminated_envelope
  (params : LiabilityConfiguration) (w : World) :
  exists r w',
    handler params w = (Returned r, w')
    /\ success r = valid (validateInput params)
    /\ match quote r with
       | Some q =>
           success r = true
           /\ error r = None
           /\ calculateQuote params w = (Returned q, w')
           /\ summary r = formatQuoteSummary q
           /\ w' = mkWorld (2 + clock_reads w) (1 + random_draws w)
       | None =>
           success r = false
           /\ error r = Some "Validation error: Invalid parameters"
           /\ w' = w
       end.
Proof.
  destruct (valid (validateInput params)) eqn:Hvalid.
  - destruct (handler_valid params w Hvalid) as [q [Hq Hh]].
    eexists. eexists. split; [exact Hh |]. simpl.
    repeat split. exact Hq.
  - eexists. eexists. split; [apply handler_invalid; exact Hvalid |].
    simpl. repeat split.
Qed.

Lemma join_empty_iff (l : list string) :
  join ", " l = EmptyString <-> l = [] \/ l = [EmptyString].
Proof.
  destruct l as [| a [| b l]]; simpl.
  - split; auto.
  - split; [intros ->; auto | intros [E | E]; [discriminate | congruence]].
  - split; [| intros [E | E]; discriminate].
    destruct a; simpl; discriminate.
Qed.

(** X15: The summary of a caught [ValidationError] falls back to the message of
    the exception when the details are missing, empty, or a single empty
    string, and is the joined details in every other case; a thrown value
    that is not an [Error] is reported as ["Unknown error"]. *)
Theorem caught_error_summary_fallbacks
  (message : string) (details : option (list string)) :
  (details = None \/ details = Some [] \/ details = Some [EmptyString] ->
   summary (on_error (ValidationError message details))
   = "Failed to calculate quote: " ++ message)
  /\ (forall l, details = Some l -> l <> [] -> l <> [EmptyString] ->
      summary (on_error (ValidationError message details))
      = "Failed to calculate quote: " ++ join ", " l)
  /\ error (on_error (ValidationError message details))
     = Some ("Validation error: " ++ message)
  /\ error (on_error NotAnError) = Some "Unknown error"
  /\ summary (on_error NotAnError)
     = "Failed to calculate quote due to an unexpected error".
Proof.
  split; [| split; [| repeat split]].
  - intros [-> | [-> | ->]]; reflexivity.
  - intros l -> Hne Hne1. simpl. unfold details_or_message.
    destruct (join ", " l) eqn:Ej; [| reflexivity].
    apply join_empty_iff in Ej. tauto.
Qed.

(** X16: The summary of a valid request's quote: the premium line, the coverage
    line, ["No deductible"] for a deductible of 0 and the amount otherwise,
    the family segment exactly when family coverage was requested, the drone
    segment exactly when drones coverage was requested, then the territory
    and the validity. *)
Theorem summary_of_valid_request
  (params : LiabilityConfiguration) (w : World)
  (Hvalid : valid (validateInput params) = true) :
  exists q w',
    calculateQuote params w = (Returned q, w')
    /\ summary_parts q =
       ([ premium_line q;
          coverage_line q;
          if deductibleAmount params =? 0 then "No deductible"
          else ("Deductible: €" ++ Z_toString (deductibleAmount params))%string ]
        ++ (if familyCoverage params then ["Includes family coverage"] else [])
        ++ (if dronesCoverage params then ["Includes drone liability"] else [])
        ++ [ "Territory: Worldwide";
             ("Valid until: "
              ++ Date_toLocaleDateString (Date_parse (validUntil q)))%string ])%list.
Proof.
  pose proof (calculateQuote_valid_record params w Hvalid) as Hq.
  eexists. eexists. split; [exact Hq |].
  destruct (valid_priced_fields params Hvalid) as [_ [Hd _]].
  unfold summary_parts, push. simpl.
  unfold build_extensions, push.
  simpl in Hd.
  destruct Hd as [E | [E | [E | [E | []]]]]; rewrite <- E;
    destruct (familyCoverage params), (dronesCoverage params); reflexivity.
Qed.

End Envelope.

Section Dispatch.
Import MCPServer.
Context {host_ : Host} {protocol_ : Protocol}.

Lemma find_registered (n : string) :
  find (fun t => String.eqb (tool_name t) n) getAllTools =
  if String.eqb "get_liability_quote" n then Some createLiabilityQuoteTool
  else None.
Proof. reflexivity. Qed.

(** X17: A call that names any tool other than ["get_liability_quote"] throws
    ["Unknown tool: "] followed by the name; the miss is logged, and the
    engine has not run. *)
Theorem callTool_unknown_tool
  (request : CallToolRequest) (s : ServerState)
  (Hname : request_name request <> "get_liability_quote") :
  callTool request s =
  (Threw (OtherError ("Unknown tool: " ++ request_name request)),
   {| world := world s;
      log := (log s ++ [Tool_not_found (request_name request)])%list |}).
Proof.
  unfold callTool. rewrite find_registered.
  destruct (String.eqb_spec "get_liability_quote" (request_name request))
    as [E | _]; [congruence | reflexivity].
Qed.

(** X18: A call of ["get_liability_quote"] never throws.  When the schema accepts
    the arguments, the response is the serialised envelope of the handler
    and carries no [isError], also when the envelope reports a validation
    failure, and the log says the execution completed with success.  When
    the schema throws, the response is the serialised failure with the
    message of the exception, [isError] is true, and the engine has not
    run. *)
Theorem callTool_registered_tool
  (request : CallToolRequest) (s : ServerState)
  (Hname : request_name request = "get_liability_quote") :
  exists res s',
    callTool request s = (Returned res, s')
    /\ match inputSchema_parse (request_arguments request) with
       | Returned params =>
           exists r,
             handler params (world s) = (Returned r, world s')
             /\ success r = valid (validateInput params)
             /\ content res =
                [ {| content_type := "text";
                     text := JSON_stringify_result r |} ]
             /\ isError res = None
             /\ log s' =
                (log s
                 ++ [ Executing_tool "get_liability_quote"
                                     (request_arguments request);
                      Tool_execution_completed "get_liability_quote" true ])%list
       | Threw e =>
           content res =
           [ {| content_type := "text";
                text := JSON_stringify_failure (message_or_unknown e) |} ]
           /\ isError res = Some true
           /\ world s' = world s
           /\ log s' =
              (log s
               ++ [ Executing_tool "get_liability_quote"
                                   (request_arguments request);
                    Tool_execution_failed "get_liability_quote" e ])%list
       end.
Proof.
  unfold callTool. rewrite find_registered, Hname. simpl.
  destruct (inputSchema_parse (request_arguments request)) as [params | e].
  - destruct (handler_total params (world s)) as [r [w' [Hh Hs]]].
    rewrite Hh. eexists. eexists. split; [reflexivity |].
    exists r. simpl. unfold push. rewrite <- app_assoc.
    repeat split; assumption.
  - eexists. eexists. split; [reflexivity |].
    simpl. unfold push. rewrite <- app_assoc. repeat split.
Qed.

End Dispatch.

(* ================================================================== *)
(** ** The theorems at concrete requests, on the sample host *)

Import SampleHost.

(** The unit tests of the repository, run on the embedding. *)

Example test_basic_tariff :
  premiums_of (SampleHost.request "basic" false false 0 0 false None)
  = Some (lit 599 100, lit 7188 100, ofZ 5000000).
Proof. vm_compute. reflexivity. Qed.

Example test_comfort_tariff :
  premiums_of plain_comfort = Some (lit 999 100, lit 11988 100, ofZ 10000000).
Proof. vm_compute. reflexivity. Qed.

Example test_premium_tariff :
  premiums_of (SampleHost.request "premium" false false 0 0 false None)
  = Some (lit 1499 100, lit 17988 100, ofZ 20000000).
Proof. vm_compute. reflexivity. Qed.

Example test_family_surcharge :
  option_map (fun r => fst (fst r))
    (premiums_of (SampleHost.request "comfort" true false 0 0 false None))
  = Some (lit 1499 100).
Proof. vm_compute. reflexivity. Qed.

Example test_drones_surcharge :
  option_map (fun r => fst (fst r))
    (premiums_of (SampleHost.request "comfort" false true 0 0 false None))
  = Some (lit 1249 100).
Proof. vm_compute. reflexivity. Qed.

Example test_deductible_discount :
  option_map (fun r => fst (fst r))
    (premiums_of (SampleHost.request "comfort" false false 500 0 false None))
  = Some (lit 799 100).
Proof. vm_compute. reflexivity. Qed.

Example test_claims_surcharge :
  option_map (fun r => fst (fst r))
    (premiums_of (SampleHost.request "comfort" false false 0 2 false None))
  = Some (lit 1299 100).
Proof. vm_compute. reflexivity. Qed.

Example test_cancellation_penalty :
  option_map (fun r => fst (fst r))
    (premiums_of (SampleHost.request "comfort" false false 0 0 true None))
  = Some (lit 1299 100).
Proof. vm_compute. reflexivity. Qed.

Example test_custom_coverage :
  option_map snd
    (premiums_of (SampleHost.request "comfort" false false 0 0 false
                    (Some 15000000)))
  = Some (ofZ 15000000).
Proof. vm_compute. reflexivity. Qed.

Example test_short_zipCode :
  @validateInput SampleHost.host short_zipCode
  = {| valid := false; errors := Some [msg_zipCode] |}.
Proof. reflexivity. Qed.

(** The sample response of the documentation (comfort, family coverage,
    deductible 150): 13.49 a month as documented, and 161.84 a year where the
    documentation prints 161.88. *)
Example documented_response :
  premiums_of (SampleHost.request "comfort" true false 150 0 false None)
  = Some (lit 1349 100, lit 16184 100, ofZ 10000000).
Proof. vm_compute. reflexivity. Qed.

Lemma C1_worked_example_witness :
  valid (@validateInput SampleHost.host worked_example) = true
  /\ exists q w',
       @calculateQuote SampleHost.host worked_example SampleHost.world0
       = (Returned q, w')
       /\ monthlyPremium q = lit 1551 100
       /\ annualPremium q = lit 18611 100
       /\ annualPremium q <> lit 18612 100
       /\ round2 (mul (monthlyPremium q) (ofZ 12)) = lit 18612 100.
Proof.
  split; [reflexivity |].
  apply (@C1_worked_example_annual_premium SampleHost.host worked_example
           SampleHost.world0); reflexivity.
Defined.

Lemma C2_zero_coverage_witness :
  coverageAmount zero_coverage = Some (ofZ 0)
  /\ ~ In msg_coverageAmount
       (reported (@validateInput SampleHost.host zero_coverage))
  /\ @validateInput SampleHost.host zero_coverage
     = @validateInput SampleHost.host (with_coverageAmount None zero_coverage)
  /\ resolve_coverage zero_coverage
     = resolve_coverage (with_coverageAmount None zero_coverage).
Proof.
  split; [reflexivity |].
  apply (@C2_zero_coverage_is_not_reported SampleHost.host zero_coverage).
  reflexivity.
Defined.

Lemma C4_two_rules_one_message_witness :
  zipCode_rule_violated short_zipCode_zero_coverage
  /\ coverage_rule_violated short_zipCode_zero_coverage
  /\ @validateInput SampleHost.host short_zipCode_zero_coverage
     = {| valid := false; errors := Some [msg_zipCode] |}.
Proof.
  apply (@C4_violated_coverage_rule_is_not_reported SampleHost.host
           short_zipCode_zero_coverage 1735689600000);
    first [ reflexivity | simpl; tauto ].
Defined.


Lemma C6_extensions_witness :
  valid (@validateInput SampleHost.host drones_and_family) = true
  /\ exists q w',
       @calculateQuote SampleHost.host drones_and_family SampleHost.world0
       = (Returned q, w')
       /\ extensions q = ["drones_coverage"; "family_coverage"].
Proof.
  split; [reflexivity |].
  destruct (@C6_extensions_of_valid_request SampleHost.host drones_and_family
              SampleHost.world0 eq_refl)
    as [q [w' [Hq [_ [_ [_ Hext]]]]]].
  exists q, w'. split; [exact Hq | exact Hext].
Defined.

Lemma C7_boundaries_witness :
  valid (@validateInput SampleHost.host plain_comfort) = true
  /\ valid (@validateInput SampleHost.host
              (with_numberOfClaims (ofZ 10) plain_comfort)) = true
  /\ valid (@validateInput SampleHost.host
              (with_numberOfClaims (ofZ 11) plain_comfort)) = false.
Proof.
  split; [reflexivity |].
  destruct (@C7_boundaries SampleHost.host plain_comfort eq_refl)
    as [H10 [H11 _]].
  split; [exact H10 | exact H11].
Defined.

Lemma C9_premiums_witness :
  valid (@validateInput SampleHost.host loaded_premium) = true
  /\ exists q w',
       @calculateQuote SampleHost.host loaded_premium SampleHost.world0
       = (Returned q, w')
       /\ nonnegative (monthlyPremium q) = true
       /\ nonnegative (annualPremium q) = true.
Proof.
  split; [reflexivity |].
  apply (@C9_premiums_nonnegative SampleHost.host loaded_premium
           SampleHost.world0).
  reflexivity.
Defined.

Lemma C10_error_field_witness :
  valid (@validateInput SampleHost.host short_zipCode) = false
  /\ exists r,
       @handler SampleHost.host short_zipCode SampleHost.world0
       = (Returned r, SampleHost.world0)
       /\ error r = Some "Validation error: Invalid parameters"
       /\ summary r =
          "Failed to calculate quote: Invalid German postal code (must be 5 digits)".
Proof.
  split; [reflexivity |].
  destruct (@C10_validation_error_field_is_constant SampleHost.host
              short_zipCode SampleHost.world0 eq_refl)
    as [_ [r [Hr [_ [Herr [Hsum _]]]]]].
  exists r. split; [exact Hr | split; [exact Herr | exact Hsum]].
Defined.

(** *** The further properties at concrete requests *)

Ltac discharge :=
  first [ reflexivity | lia | discriminate
        | intros; reflexivity | intros; discriminate ].

Lemma X4_coverageSum_witness :
  valid (validateInput (request "comfort" false false 0 0 false (Some 15000000)))
  = true
  /\ exists q w',
       calculateQuote (request "comfort" false false 0 0 false (Some 15000000))
                      world0 = (Returned q, w')
       /\ ge (coverageSum q) (ofZ 5000000) = true
       /\ le (coverageSum q) (ofZ 20000000) = true.
Proof.
  split; [reflexivity |].
  destruct (@coverageSum_resolved_in_range host
              (request "comfort" false false 0 0 false (Some 15000000))
              world0 eq_refl) as [q [w' [Hq [[Hlo Hhi] _]]]].
  exists q, w'. split; [exact Hq | split; [exact Hlo | exact Hhi]].
Defined.

Lemma X5_priced_fields_witness :
  priced_of (request "comfort" true false 150 1 false (Some 15000000))
  = priced_of (request "comfort" true false 150 1 false None)
  /\ exists q1 q2 w1' w2',
       calculateQuote (request "comfort" true false 150 1 false (Some 15000000))
                      world0 = (Returned q1, w1')
       /\ calculateQuote (request "comfort" true false 150 1 false None) (mkWorld 7 3) = (Returned q2, w2')
       /\ monthlyPremium q1 = monthlyPremium q2
       /\ annualPremium q1 = annualPremium q2
       /\ extensions q1 = extensions q2.
Proof.
  split; [reflexivity |].
  apply (@premiums_depend_on_priced_fields_only host); discharge.
Defined.

Lemma X6_whole_cents_witness :
  valid (validateInput loaded_premium) = true
  /\ exists q w' m a,
       calculateQuote loaded_premium world0 = (Returned q, w')
       /\ monthlyPremium q = lit m 100
       /\ annualPremium q = lit a 100
       /\ 479 <= m <= 8120
       /\ 5750 <= a <= 97442.
Proof.
  split; [reflexivity |].
  apply (@premiums_whole_cents_in_range host loaded_premium world0 10);
    discharge.
Defined.

Lemma X7_annual_witness :
  valid (validateInput worked_example) = true
  /\ exists q w' m a,
       calculateQuote worked_example world0 = (Returned q, w')
       /\ monthlyPremium q = lit m 100
       /\ annualPremium q = lit a 100
       /\ -6 <= a - 12 * m <= 6.
Proof.
  split; [reflexivity |].
  apply (@annual_within_six_cents_of_twelve_monthly host worked_example world0
           1); discharge.
Defined.

Lemma X8_claims_witness :
  exists q1 q2 w1' w2',
    calculateQuote (request "comfort" false false 0 1 false None) world0
    = (Returned q1, w1')
    /\ calculateQuote (request "comfort" false false 0 2 false None) world0
       = (Returned q2, w2')
    /\ lt (monthlyPremium q1) (monthlyPremium q2) = true.
Proof.
  apply (@more_claims_cost_more host
           (request "comfort" false false 0 1 false None)
           (request "comfort" false false 0 2 false None) world0 world0 1 2);
    discharge.
Defined.

Lemma X9_options_witness :
  exists q1 q2 w1' w2',
    calculateQuote (request "basic" false true 300 2 false None) world0
    = (Returned q1, w1')
    /\ calculateQuote (request "basic" true true 300 2 true None) world0
       = (Returned q2, w2')
    /\ lt (monthlyPremium q1) (monthlyPremium q2) = true.
Proof.
  destruct (@options_never_lower_the_premium host
              (request "basic" false true 300 2 false None)
              (request "basic" true true 300 2 true None)
              world0 world0 2 eq_refl eq_refl eq_refl eq_refl eq_refl eq_refl
              ltac:(lia)
              (fun _ => eq_refl) (fun _ => eq_refl) (fun _ => eq_refl))
    as [q1 [q2 [w1' [w2' [Hq1 [Hq2 [_ Hlt]]]]]]].
  exists q1, q2, w1', w2'. split; [exact Hq1 |]. split; [exact Hq2 |].
  apply Hlt. intros [Hf _]. discriminate.
Defined.

Lemma X10_deductible_witness :
  exists q1 q2 w1' w2',
    calculateQuote (request "premium" false false 150 0 false None) world0
    = (Returned q1, w1')
    /\ calculateQuote (request "premium" false false 500 0 false None) world0
       = (Returned q2, w2')
    /\ lt (monthlyPremium q2) (monthlyPremium q1) = true.
Proof.
  apply (@higher_deductible_costs_less host
           (request "premium" false false 150 0 false None)
           (request "premium" false false 500 0 false None) world0 world0 0);
    discharge.
Defined.

Lemma X11_tariff_witness :
  exists q1 q2 w1' w2',
    calculateQuote (request "basic" true false 0 3 false None) world0
    = (Returned q1, w1')
    /\ calculateQuote (request "comfort" true false 0 3 false None) world0
       = (Returned q2, w2')
    /\ lt (monthlyPremium q1) (monthlyPremium q2) = true.
Proof.
  apply (@higher_tariff_costs_more host
           (request "basic" true false 0 3 false None)
           (request "comfort" true false 0 3 false None) world0 world0 3);
    discharge.
Defined.

Lemma X12_quote_fields_witness :
  valid (validateInput drones_and_family) = true
  /\ exists q w',
       calculateQuote drones_and_family world0 = (Returned q, w')
       /\ q_familyCoverage q = true
       /\ In "family_coverage" (extensions q)
       /\ NoDup (extensions q).
Proof.
  split; [reflexivity |].
  destruct (@quote_fields_consistent host drones_and_family world0 eq_refl)
    as [q [w' [Hq [_ [_ [_ [_ [_ [_ [_ [Hf [Hiff Hnd]]]]]]]]]]]].
  exists q, w'. split; [exact Hq |]. split; [exact Hf |].
  split; [apply Hiff; exact Hf | exact Hnd].
Defined.

Lemma X13_quoteId_witness :
  exists q1 q2 w1' w2',
    calculateQuote plain_comfort world0 = (Returned q1, w1')
    /\ calculateQuote plain_comfort (mkWorld 2 1) = (Returned q2, w2')
    /\ quoteId q1 <> quoteId q2.
Proof.
  destruct (@quoteId_collides_iff host plain_comfort plain_comfort
              world0 (mkWorld 2 1) eq_refl eq_refl)
    as [q1 [q2 [w1' [w2' [Hq1 [Hq2 Hiff]]]]]].
  exists q1, q2, w1', w2'. split; [exact Hq1 |]. split; [exact Hq2 |].
  intros E. apply Hiff in E. destruct E as [Et _]. discriminate.
Defined.

Lemma X16_summary_witness :
  valid (validateInput drones_and_family) = true
  /\ exists q w',
       calculateQuote drones_and_family world0 = (Returned q, w')
       /\ summary_parts q =
          [ premium_line q; coverage_line q; "No deductible";
            "Includes family coverage"; "Includes drone liability";
            "Territory: Worldwide";
            "Valid until: "
            ++ Date_toLocaleDateString (Date_parse (validUntil q)) ].
Proof.
  split; [reflexivity |].
  destruct (@summary_of_valid_request host drones_and_family world0 eq_refl)
    as [q [w' [Hq Hs]]].
  exists q, w'. split; [exact Hq | exact Hs].
Defined.

Lemma X17_unknown_tool_witness :
  MCPServer.callTool SampleProtocol.weather_call SampleProtocol.server0
  = (Threw (OtherError "Unknown tool: get_weather"),
     @MCPServer.mkServer SampleProtocol.protocol world0
       [@MCPServer.Tool_not_found SampleProtocol.protocol "get_weather"]).
Proof.
  apply (@callTool_unknown_tool host SampleProtocol.protocol
           SampleProtocol.weather_call SampleProtocol.server0).
  discriminate.
Defined.

Lemma X18_registered_tool_witness :
  exists res s',
    MCPServer.callTool SampleProtocol.short_zipCode_call SampleProtocol.server0
    = (Returned res, s')
    /\ MCPServer.isError res = None
    /\ MCPServer.content res =
       [ MCPServer.mkText "text" "result: failure" ].
Proof.
  destruct (@callTool_registered_tool host SampleProtocol.protocol
              SampleProtocol.short_zipCode_call SampleProtocol.server0 eq_refl)
    as [res [s' [Hc Hm]]].
  exists res, s'. split; [exact Hc |].
  simpl in Hm. destruct Hm as [r [Hh [Hs [Hcont [Herr _]]]]].
  split; [exact Herr |].
  rewrite Hcont. simpl in Hs. rewrite Hs. reflexivity.
Defined.
